(** * MCP plugin manager: configuration aggregation and mutation

    A shallow embedding of the configuration engine of [gzh-cli-mcp-plugin]:

    - [pkg/config]                        ([Reader], [Writer])
    - [pkg/infrastructure/claudeconfig]  ([Reader] over [settings.json])
    - [pkg/infrastructure/repository]    ([PluginRepository])
    - [pkg/application/usecase/plugin]   ([ToggleUseCase], [ListUseCase])

    Modelling conventions.

    - A file is known up to JSON decoding: its bytes either do not parse or
      decode to a JSON value.  Objects are finite maps (one value per key),
      numbers are binary64 floats, as [encoding/json] decodes them into
      [interface{}].  Keys are matched exactly; the case-folding fallback for
      struct fields is outside the model.
    - [json.MarshalIndent] followed by [json.Unmarshal] is the identity on
      decoded values, so a write stores the decoded value itself.
    - A Go map that is iterated with [range] yields its entries in an order
      chosen by the runtime; the order is a parameter ([MapRange]).
    - Each operation takes the file system and, when it writes, returns the
      new one. *)

From Stdlib Require Import Floats.PrimFloat Strings.Ascii.
From stdpp Require Import gmap strings list fin_maps sorting.

#[local] Set Warnings "-register-all".

(** ** Errors and results *)

Inductive error :=
  | ENotExist                         (* os: file does not exist *)
  | EIO                               (* os: any other read or write failure *)
  | EUnmarshal                        (* encoding/json: syntax or type error *)
  | EAlreadyExists (name : string)    (* "MCP server '%s' already exists" *)
  | ENotFound (name : string)         (* "MCP server '%s' not found" *)
  | EWrap (msg : string) (e : error). (* fmt.Errorf("msg: %w", e) *)

(** The outcome of a Go call that returns [(A, error)]; [Panic] is a run-time
    panic (here: assignment to an entry of a nil map). *)
Inductive result (A : Type) :=
  | Ok (a : A)
  | Err (e : error)
  | Panic.
Arguments Ok {A} a.
Arguments Err {A} e.
Arguments Panic {A}.

#[export] Instance result_ret : MRet result := λ A a, Ok a.
#[export] Instance result_bind : MBind result := λ A B f r,
  match r with
  | Ok a => f a
  | Err e => Err e
  | Panic => Panic
  end.

(** [fmt.Errorf("msg: %w", err)] on the error branch. *)
Definition wrap {A} (msg : string) (r : result A) : result A :=
  match r with
  | Err e => Err (EWrap msg e)
  | _ => r
  end.

(** ** JSON values and files *)

Inductive json :=
  | JNull
  | JBool (b : bool)
  | JNum (x : PrimFloat.float)
  | JStr (s : string)
  | JArr (l : list json)
  | JObj (o : gmap string json).

(** The bytes of a file, up to decoding. *)
Inductive content :=
  | Garbage              (* not valid JSON *)
  | Doc (v : json).

Inductive node :=
  | Missing              (* no such file *)
  | Denied               (* exists, but cannot be read *)
  | Data (c : content).

Record file := File { node_of : node; writable : bool }.

Definition ReadFile (f : file) : result content :=
  match node_of f with
  | Missing => Err ENotExist
  | Denied => Err EIO
  | Data c => Ok c
  end.

(** [os.WriteFile]: replaces the whole content, creating the file if needed. *)
Definition WriteFile (f : file) (c : content) : file * result () :=
  if writable f then (File (Data c) true, Ok ()) else (f, Err EIO).

(** [os.IsNotExist]. *)
Definition IsNotExist (e : error) : bool :=
  match e with
  | ENotExist => true
  | _ => false
  end.

(** ** Plugin identifiers ([usecase/plugin/list.go]) *)

(** The loop [for i := len(id) - 1; i >= 0; i--]; [n] is [i + 1]. *)
Fixpoint parsePluginID_from (id : string) (n : nat) : string * string :=
  match n with
  | 0 => (id, "")
  | S i =>
      if decide (String.get i id = Some "@"%char)
      then (String.substring 0 i id,
            String.substring (S i) (String.length id - S i) id)
      else parsePluginID_from id i
  end.

Definition parsePluginID (id : string) : string * string :=
  parsePluginID_from id (String.length id).

(** A string has no ['@'] byte. *)
Definition no_at (s : string) : Prop :=
  ∀ i, String.get i s ≠ Some "@"%char.

(** ** Map iteration *)

(** [for k, v := range m]: some enumeration of the entries of [m]. *)
Class MapRange := {
  go_range : ∀ {V : Type}, gmap string V → list (string * V);
  go_range_perm : ∀ (V : Type) (m : gmap string V), go_range m ≡ₚ map_to_list m;
}.

(** One possible runtime: entries come out in the order of [map_to_list]. *)
Definition key_order : MapRange :=
  {| go_range := λ V m, map_to_list m; go_range_perm := λ V m, reflexivity _ |}.

(** ** [encoding/json] *)

(** [json.Unmarshal(data, &x)] for a target whose decoder is [dec]. *)
Definition Unmarshal {A} (dec : json → option A) (data : content) : result A :=
  match data with
  | Garbage => Err EUnmarshal
  | Doc v =>
      match dec v with
      | Some a => Ok a
      | None => Err EUnmarshal
      end
  end.

(** Target [map[string]interface{}]: [null] leaves the map nil ([None]). *)
Definition dec_generic (v : json) : option (option (gmap string json)) :=
  match v with
  | JObj o => Some (Some o)
  | JNull => Some None
  | _ => None
  end.

(** [m[k]] on a possibly nil map. *)
Definition nil_lookup (k : string) (m : option (gmap string json)) : option json :=
  m ≫= (.!! k).

(** [m[k] = v] on a possibly nil map. *)
Definition assign (k : string) (v : json) (m : option (gmap string json))
  : result (gmap string json) :=
  match m with
  | Some o => Ok (<[k := v]> o)
  | None => Panic
  end.

(** Typed targets.  [null] leaves the zero value; a value of another kind is
    a type error, which makes the whole call return an error. *)
Definition dec_string (v : json) : option string :=
  match v with
  | JStr s => Some s
  | JNull => Some ""
  | _ => None
  end.

Definition dec_bool (v : json) : option bool :=
  match v with
  | JBool b => Some b
  | JNull => Some false
  | _ => None
  end.

Definition dec_strings (v : json) : option (list string) :=
  match v with
  | JArr l => mapM dec_string l
  | JNull => Some []
  | _ => None
  end.

Definition dec_map {A} (dec : json → option A) (v : json) : option (gmap string A) :=
  match v with
  | JObj o =>
      if decide (map_Forall (λ _ x, is_Some (dec x)) o)
      then Some (omap dec o) else None
  | JNull => Some ∅
  | _ => None
  end.

(** A struct field with tag [k]: absent keys leave the zero value. *)
Definition dec_field {A} (dec : json → option A) (zero : A) (k : string)
    (o : gmap string json) : option A :=
  match o !! k with
  | Some v => dec v
  | None => Some zero
  end.

(** Marshalling of [map[string]bool], [[]string] and [map[string]string]. *)
Definition enc_bools (m : gmap string bool) : json := JObj (JBool <$> m).
Definition enc_strings (l : list string) : json := JArr (JStr <$> l).
Definition enc_string_map (m : gmap string string) : json := JObj (JStr <$> m).

(** ** The file system *)

(** [<cache>/<entry>/<sub>]: a directory entry and its [.mcp.json]. *)
Record SubEntry := {
  sub_Name : string;
  sub_IsDir : bool;
  sub_mcp_json : file;
}.

(** [<cache>/<entry>]: a directory entry and, for [os.ReadDir] on it, the
    listing or [None] when it fails. *)
Record DirEntry := {
  ent_Name : string;
  ent_IsDir : bool;
  ent_ReadDir : option (list SubEntry);
}.

Record fs := {
  claude_json : file;                        (* <home>/.claude.json *)
  settings_json : file;                      (* <home>/.claude/settings.json *)
  plugins_cache : error + list DirEntry;     (* os.ReadDir of <home>/.claude/plugins/cache *)
}.

Definition set_claude_json (f : file) (σ : fs) : fs :=
  {| claude_json := f; settings_json := settings_json σ;
     plugins_cache := plugins_cache σ |}.

Definition set_settings_json (f : file) (σ : fs) : fs :=
  {| claude_json := claude_json σ; settings_json := f;
     plugins_cache := plugins_cache σ |}.

(** [filepath.Join] on clean components. *)
Definition Join (dir name : string) : string := dir +:+ "/" +:+ name.

(** ** Package [pkg/config] *)

Module config.

(** The raw server config of a document. *)
Record MCPServerConfig := {
  cfg_Type : string;
  cfg_URL : string;
  cfg_Command : string;
  cfg_Args : list string;
  cfg_Headers : gmap string string;
}.

Record MCPServer := {
  Name : string;
  Type_ : string;
  URL : string;
  Command : string;
  Args : list string;
  Headers : gmap string string;
  Enabled : bool;
  Source : string;
}.

Record ProjectConfig := { proj_MCPServers : gmap string MCPServerConfig }.
Record ClaudeConfig := { Projects : gmap string ProjectConfig }.
Record PluginMCPConfig := { MCPServers : gmap string MCPServerConfig }.
Record SettingsConfig := { EnabledPlugins : gmap string bool }.

Definition zero_MCPServerConfig : MCPServerConfig :=
  {| cfg_Type := ""; cfg_URL := ""; cfg_Command := ""; cfg_Args := [];
     cfg_Headers := ∅ |}.

Definition dec_MCPServerConfig (v : json) : option MCPServerConfig :=
  match v with
  | JObj o =>
      t ← dec_field dec_string "" "type" o;
      u ← dec_field dec_string "" "url" o;
      c ← dec_field dec_string "" "command" o;
      a ← dec_field dec_strings [] "args" o;
      h ← dec_field (dec_map dec_string) ∅ "headers" o;
      Some {| cfg_Type := t; cfg_URL := u; cfg_Command := c; cfg_Args := a;
              cfg_Headers := h |}
  | JNull => Some zero_MCPServerConfig
  | _ => None
  end.

Definition dec_ProjectConfig (v : json) : option ProjectConfig :=
  match v with
  | JObj o =>
      m ← dec_field (dec_map dec_MCPServerConfig) ∅ "mcpServers" o;
      Some {| proj_MCPServers := m |}
  | JNull => Some {| proj_MCPServers := ∅ |}
  | _ => None
  end.

Definition dec_ClaudeConfig (v : json) : option ClaudeConfig :=
  match v with
  | JObj o =>
      m ← dec_field (dec_map dec_ProjectConfig) ∅ "projects" o;
      Some {| Projects := m |}
  | JNull => Some {| Projects := ∅ |}
  | _ => None
  end.

Definition dec_PluginMCPConfig (v : json) : option PluginMCPConfig :=
  match v with
  | JObj o =>
      m ← dec_field (dec_map dec_MCPServerConfig) ∅ "mcpServers" o;
      Some {| MCPServers := m |}
  | JNull => Some {| MCPServers := ∅ |}
  | _ => None
  end.

Definition dec_SettingsConfig (v : json) : option SettingsConfig :=
  match v with
  | JObj o =>
      m ← dec_field (dec_map dec_bool) ∅ "enabledPlugins" o;
      Some {| EnabledPlugins := m |}
  | JNull => Some {| EnabledPlugins := ∅ |}
  | _ => None
  end.

(** *** [reader.go] *)

Record Reader := { homeDir : string }.

(** The server built from one [name, cfg] entry; the source repeats this
    block in each of its three loops. *)
Definition newServer (name : string) (cfg : MCPServerConfig) (source : string)
  : MCPServer :=
  {| Name := name;
     Type_ := if decide (cfg_Type cfg ≠ "") then cfg_Type cfg
              else if decide (cfg_Command cfg ≠ "") then "command"
              else "http";
     URL := cfg_URL cfg;
     Command := cfg_Command cfg;
     Args := cfg_Args cfg;
     Headers := cfg_Headers cfg;
     Enabled := false;
     Source := source |}.

Definition set_Enabled (b : bool) (s : MCPServer) : MCPServer :=
  {| Name := Name s; Type_ := Type_ s; URL := URL s; Command := Command s;
     Args := Args s; Headers := Headers s; Enabled := b; Source := Source s |}.

Section reader.
Context `{MapRange}.

Definition readClaudeJSON (r : Reader) (σ : fs) : result (list MCPServer) :=
  let path := Join (homeDir r) ".claude.json" in
  data ← ReadFile (claude_json σ);
  config ← Unmarshal dec_ClaudeConfig data;
  Ok ('(_, proj) ← go_range (Projects config);
      '(name, cfg) ← go_range (proj_MCPServers proj);
      [newServer name cfg path]).

(** The two parse attempts on one readable [.mcp.json]. *)
Definition readPluginConfigs_file (mcpPath : string) (data : content)
  : list MCPServer :=
  (match Unmarshal (dec_map dec_MCPServerConfig) data with
   | Ok rawConfig =>
       '(name, cfg) ← go_range rawConfig;
       if decide (name = "mcpServers") then [] else [newServer name cfg mcpPath]
   | _ => []
   end)
  ++
  (match Unmarshal dec_PluginMCPConfig data with
   | Ok pluginConfig =>
       if decide (0 < size (MCPServers pluginConfig)) then
         '(name, cfg) ← go_range (MCPServers pluginConfig);
         [newServer name cfg mcpPath]
       else []
   | _ => []
   end).

Definition readPluginConfigs (r : Reader) (σ : fs) : result (list MCPServer) :=
  let cacheDir := Join (Join (Join (homeDir r) ".claude") "plugins") "cache" in
  match plugins_cache σ with
  | inl e => Err e
  | inr entries =>
      Ok (entry ← entries;
          if negb (ent_IsDir entry) then [] else
          let pluginDir := Join cacheDir (ent_Name entry) in
          match ent_ReadDir entry with
          | None => []
          | Some subEntries =>
              subEntry ← subEntries;
              if negb (sub_IsDir subEntry) then [] else
              let mcpPath := Join (Join pluginDir (sub_Name subEntry)) ".mcp.json" in
              match ReadFile (sub_mcp_json subEntry) with
              | Ok data => readPluginConfigs_file mcpPath data
              | _ => []
              end
          end)
  end.

Definition readSettings (r : Reader) (σ : fs) : result (gmap string bool) :=
  data ← ReadFile (settings_json σ);
  config ← Unmarshal dec_SettingsConfig data;
  Ok (EnabledPlugins config).

(** [enabledPlugins, _ := r.readSettings()]: a nil map on error. *)
Definition enabledFlags (r : Reader) (σ : fs) : gmap string bool :=
  match readSettings r σ with
  | Ok enabledPlugins => enabledPlugins
  | _ => ∅
  end.

(** One round of the loop that overlays the enabled status. *)
Definition applyEnabled (enabledPlugins : gmap string bool) (s : MCPServer)
  : MCPServer :=
  match enabledPlugins !! Name s with
  | Some enabled => set_Enabled enabled s
  | None => s
  end.

(** Returns the list and the error, which is always nil. *)
Definition ListMCPServers (r : Reader) (σ : fs) : list MCPServer * option error :=
  let servers := [] in
  let servers :=
    match readClaudeJSON r σ with
    | Ok claudeServers => servers ++ claudeServers
    | _ => servers
    end in
  let servers :=
    match readPluginConfigs r σ with
    | Ok pluginServers => servers ++ pluginServers
    | _ => servers
    end in
  let enabledPlugins := enabledFlags r σ in
  (applyEnabled enabledPlugins <$> servers, None).

End reader.

(** Ascending byte order of the server names. *)
Definition by_Name : relation MCPServer := λ a b, String.le (Name a) (Name b).

(** A readable descriptor file of the plugin cache: the [.mcp.json] of a
    directory two levels below the cache root. *)
Definition descriptor (σ : fs) (data : content) : Prop :=
  ∃ entries entry subEntries subEntry,
    plugins_cache σ = inr entries ∧ entry ∈ entries
    ∧ ent_IsDir entry = true ∧ ent_ReadDir entry = Some subEntries
    ∧ subEntry ∈ subEntries ∧ sub_IsDir subEntry = true
    ∧ ReadFile (sub_mcp_json subEntry) = Ok data.

(** [origin σ name cfg]: an origin document of [σ] has the entry
    [name ↦ cfg] — under a project of [.claude.json], at the top level of a
    descriptor, or under a descriptor's ["mcpServers"]. *)
Inductive origin (σ : fs) (name : string) (cfg : MCPServerConfig) : Prop :=
  | origin_project data config project proj :
      ReadFile (claude_json σ) = Ok data →
      Unmarshal dec_ClaudeConfig data = Ok config →
      Projects config !! project = Some proj →
      proj_MCPServers proj !! name = Some cfg →
      origin σ name cfg
  | origin_flat data rawConfig :
      descriptor σ data →
      Unmarshal (dec_map dec_MCPServerConfig) data = Ok rawConfig →
      rawConfig !! name = Some cfg →
      name ≠ "mcpServers" →
      origin σ name cfg
  | origin_wrapped data pluginConfig :
      descriptor σ data →
      Unmarshal dec_PluginMCPConfig data = Ok pluginConfig →
      MCPServers pluginConfig !! name = Some cfg →
      origin σ name cfg.

(** *** [writer.go] *)

Record MCPServerEntry := {
  entry_Type : string;
  entry_Command : string;
  entry_Args : list string;
  entry_URL : string;
  entry_Headers : gmap string string;
  entry_Enabled : bool;
}.

(** The managed sub-map [doc[key].(map[string]interface{})]. *)
Definition sub_map (key : string) (doc : option (gmap string json))
  : option (gmap string json) :=
  match nil_lookup key doc with
  | Some (JObj m) => Some m
  | _ => None
  end.

(** The managed map of the Global Server Store, when [.claude.json] can be
    read and parsed: [None] when the document has no object under
    ["mcpServers"]. *)
Definition managed_servers (σ : fs) : result (option (gmap string json)) :=
  data ← ReadFile (claude_json σ);
  config ← Unmarshal dec_generic data;
  Ok (sub_map "mcpServers" config).

Definition SetPluginEnabled (pluginID : string) (enabled : bool) (σ : fs)
  : fs * result () :=
  match
    data ← wrap "failed to read settings" (ReadFile (settings_json σ));
    settings ← wrap "failed to parse settings" (Unmarshal dec_generic data);
    let enabledPlugins := default ∅ (sub_map "enabledPlugins" settings) in
    let enabledPlugins := <[pluginID := JBool enabled]> enabledPlugins in
    assign "enabledPlugins" (JObj enabledPlugins) settings
  with
  | Ok settings =>
      let '(f, r) := WriteFile (settings_json σ) (Doc (JObj settings)) in
      (set_settings_json f σ, wrap "failed to write settings" r)
  | Err e => (σ, Err e)
  | Panic => (σ, Panic)
  end.

(** The object written for a new server: only the non-empty fields. *)
Definition serverConfig (entry : MCPServerEntry) : gmap string json :=
  let c := ∅ in
  let c := if decide (entry_Type entry ≠ "")
           then <["type" := JStr (entry_Type entry)]> c else c in
  let c := if decide (entry_Command entry ≠ "")
           then <["command" := JStr (entry_Command entry)]> c else c in
  let c := if decide (0 < length (entry_Args entry))
           then <["args" := enc_strings (entry_Args entry)]> c else c in
  let c := if decide (entry_URL entry ≠ "")
           then <["url" := JStr (entry_URL entry)]> c else c in
  let c := if decide (0 < size (entry_Headers entry))
           then <["headers" := enc_string_map (entry_Headers entry)]> c else c in
  let c := if entry_Enabled entry
           then <["enabled" := JBool (entry_Enabled entry)]> c else c in
  c.

Definition AddMCPServer (name : string) (entry : MCPServerEntry) (σ : fs)
  : fs * result () :=
  match
    data ← wrap "failed to read claude.json" (ReadFile (claude_json σ));
    config ← wrap "failed to parse claude.json" (Unmarshal dec_generic data);
    let mcpServers := default ∅ (sub_map "mcpServers" config) in
    if decide (is_Some (mcpServers !! name)) then Err (EAlreadyExists name) else
    let mcpServers := <[name := JObj (serverConfig entry)]> mcpServers in
    assign "mcpServers" (JObj mcpServers) config
  with
  | Ok config =>
      let '(f, r) := WriteFile (claude_json σ) (Doc (JObj config)) in
      (set_claude_json f σ, wrap "failed to write claude.json" r)
  | Err e => (σ, Err e)
  | Panic => (σ, Panic)
  end.

Definition RemoveMCPServer (name : string) (σ : fs) : fs * result () :=
  match
    data ← wrap "failed to read claude.json" (ReadFile (claude_json σ));
    config ← wrap "failed to parse claude.json" (Unmarshal dec_generic data);
    match sub_map "mcpServers" config with
    | None => Err (ENotFound name)
    | Some mcpServers =>
        if decide (is_Some (mcpServers !! name)) then
          let mcpServers := delete name mcpServers in
          assign "mcpServers" (JObj mcpServers) config
        else Err (ENotFound name)
    end
  with
  | Ok config =>
      let '(f, r) := WriteFile (claude_json σ) (Doc (JObj config)) in
      (set_claude_json f σ, wrap "failed to write claude.json" r)
  | Err e => (σ, Err e)
  | Panic => (σ, Panic)
  end.

(** [val.(bool)], [v.(string)] and [v.(map[string]interface{})]. *)
Definition as_bool (v : json) : option bool :=
  match v with
  | JBool b => Some b
  | _ => None
  end.

Definition as_string (v : json) : option string :=
  match v with
  | JStr s => Some s
  | _ => None
  end.

Definition as_object (v : json) : option (gmap string json) :=
  match v with
  | JObj o => Some o
  | _ => None
  end.

(** The result map holds the entries whose value is a bool. *)
Definition ListPlugins (σ : fs) : result (gmap string bool) :=
  data ← wrap "failed to read settings" (ReadFile (settings_json σ));
  settings ← wrap "failed to parse settings" (Unmarshal dec_generic data);
  match sub_map "enabledPlugins" settings with
  | None => Ok ∅
  | Some enabledPlugins => Ok (omap as_bool enabledPlugins)
  end.

Definition PluginExists (pluginID : string) (σ : fs) : result bool :=
  plugins ← ListPlugins σ;
  Ok (bool_decide (is_Some (plugins !! pluginID))).

(** Returns [(enabled, exists)]. *)
Definition GetPluginStatus (pluginID : string) (σ : fs) : result (bool * bool) :=
  plugins ← ListPlugins σ;
  Ok (default false (plugins !! pluginID),
      bool_decide (is_Some (plugins !! pluginID))).

(** The entry read back from one server object; headers are not read. *)
Definition entryOf (cfg : gmap string json) : MCPServerEntry :=
  {| entry_Type := default "" (cfg !! "type" ≫= as_string);
     entry_Command := default "" (cfg !! "command" ≫= as_string);
     entry_Args :=
       match cfg !! "args" with
       | Some (JArr args) => omap as_string args
       | _ => []
       end;
     entry_URL := default "" (cfg !! "url" ≫= as_string);
     entry_Headers := ∅;
     entry_Enabled := default false (cfg !! "enabled" ≫= as_bool) |}.

(** The result map holds the entries whose value is an object. *)
Definition ListMCPServersGlobal (σ : fs) : result (gmap string MCPServerEntry) :=
  data ← wrap "failed to read claude.json" (ReadFile (claude_json σ));
  config ← wrap "failed to parse claude.json" (Unmarshal dec_generic data);
  match sub_map "mcpServers" config with
  | None => Ok ∅
  | Some mcpServers => Ok (omap (λ v, entryOf <$> as_object v) mcpServers)
  end.

Definition MCPServerExists (name : string) (σ : fs) : result bool :=
  servers ← ListMCPServersGlobal σ;
  Ok (bool_decide (is_Some (servers !! name))).

End config.

(** ** Package [pkg/infrastructure/claudeconfig] *)

Module claudeconfig.

Record Permissions := {
  Allow : list string;
  Deny : list string;
  DefaultMode : string;
}.

(** [Extra] carries the tag [json:"-"] and is never set; it is left out. *)
Record Settings := {
  Schema : string;
  Permissions_ : option Permissions;       (* nil pointer: [None] *)
  Hooks : gmap string json;
  EnabledPlugins : gmap string bool;
}.

Definition dec_Permissions (v : json) : option (option Permissions) :=
  match v with
  | JObj o =>
      a ← dec_field dec_strings [] "allow" o;
      d ← dec_field dec_strings [] "deny" o;
      m ← dec_field dec_string "" "defaultMode" o;
      Some (Some {| Allow := a; Deny := d; DefaultMode := m |})
  | JNull => Some None
  | _ => None
  end.

Definition dec_Settings (v : json) : option Settings :=
  match v with
  | JObj o =>
      s ← dec_field dec_string "" "$schema" o;
      p ← dec_field dec_Permissions None "permissions" o;
      h ← dec_field (dec_map Some) ∅ "hooks" o;
      e ← dec_field (dec_map dec_bool) ∅ "enabledPlugins" o;
      Some {| Schema := s; Permissions_ := p; Hooks := h; EnabledPlugins := e |}
  | JNull =>
      Some {| Schema := ""; Permissions_ := None; Hooks := ∅;
              EnabledPlugins := ∅ |}
  | _ => None
  end.

(** Marshalling with [omitempty] on every field. *)
Definition enc_Permissions (p : Permissions) : json :=
  let c := ∅ in
  let c := if decide (0 < length (Allow p))
           then <["allow" := enc_strings (Allow p)]> c else c in
  let c := if decide (0 < length (Deny p))
           then <["deny" := enc_strings (Deny p)]> c else c in
  let c := if decide (DefaultMode p ≠ "")
           then <["defaultMode" := JStr (DefaultMode p)]> c else c in
  JObj c.

Definition enc_Settings (s : Settings) : json :=
  let c := ∅ in
  let c := if decide (Schema s ≠ "")
           then <["$schema" := JStr (Schema s)]> c else c in
  let c := match Permissions_ s with
           | Some p => <["permissions" := enc_Permissions p]> c
           | None => c
           end in
  let c := if decide (0 < size (Hooks s))
           then <["hooks" := JObj (Hooks s)]> c else c in
  let c := if decide (0 < size (EnabledPlugins s))
           then <["enabledPlugins" := enc_bools (EnabledPlugins s)]> c else c in
  JObj c.

Definition set_EnabledPlugins (m : gmap string bool) (s : Settings) : Settings :=
  {| Schema := Schema s; Permissions_ := Permissions_ s; Hooks := Hooks s;
     EnabledPlugins := m |}.

(** The reader's [configDir]; [settings_json] is the file at
    [SettingsPath]. *)
Record Reader := { configDir : string }.

Definition SettingsPath (r : Reader) : string := Join (configDir r) "settings.json".

(** A nil [EnabledPlugins] is replaced by an empty map before returning, so
    the map is never nil afterwards. *)
Definition ReadSettings (r : Reader) (σ : fs) : result Settings :=
  match ReadFile (settings_json σ) with
  | Ok data => wrap "parse settings" (Unmarshal dec_Settings data)
  | Err e =>
      if IsNotExist e then
        Ok {| Schema := ""; Permissions_ := None; Hooks := ∅;
              EnabledPlugins := ∅ |}
      else Err (EWrap "read settings" e)
  | Panic => Panic
  end.

Definition WriteSettings (r : Reader) (settings : Settings) (σ : fs)
  : fs * result () :=
  let write c :=
    let '(f, e) := WriteFile (settings_json σ) c in (set_settings_json f σ, e) in
  let fresh := write (Doc (enc_Settings settings)) in
  match ReadFile (settings_json σ) with
  | Ok existingData =>
      match Unmarshal dec_generic existingData with
      | Ok existing =>
          match assign "enabledPlugins" (enc_bools (EnabledPlugins settings))
                  existing with
          | Ok existing => write (Doc (JObj existing))
          | Err e => (σ, Err e)
          | Panic => (σ, Panic)
          end
      | _ => fresh
      end
  | _ => fresh
  end.

Definition ListEnabledPlugins `{MapRange} (r : Reader) (σ : fs)
  : result (list string) :=
  settings ← ReadSettings r σ;
  Ok ('(id, isEnabled) ← go_range (EnabledPlugins settings);
      if isEnabled : bool then [id] else []).

Definition ListAllPlugins (r : Reader) (σ : fs) : result (gmap string bool) :=
  settings ← ReadSettings r σ;
  Ok (EnabledPlugins settings).

Definition EnablePlugin (r : Reader) (pluginID : string) (σ : fs)
  : fs * result () :=
  match ReadSettings r σ with
  | Ok settings =>
      WriteSettings r
        (set_EnabledPlugins (<[pluginID := true]> (EnabledPlugins settings)) settings) σ
  | Err e => (σ, Err e)
  | Panic => (σ, Panic)
  end.

Definition DisablePlugin (r : Reader) (pluginID : string) (σ : fs)
  : fs * result () :=
  match ReadSettings r σ with
  | Ok settings =>
      WriteSettings r
        (set_EnabledPlugins (<[pluginID := false]> (EnabledPlugins settings)) settings) σ
  | Err e => (σ, Err e)
  | Panic => (σ, Panic)
  end.

Definition IsPluginEnabled (r : Reader) (pluginID : string) (σ : fs)
  : result bool :=
  settings ← ReadSettings r σ;
  match EnabledPlugins settings !! pluginID with
  | Some enabled => Ok enabled
  | None => Ok false
  end.

(** [setEnabled(id, b)] on this path: [EnablePlugin] for [b = true],
    [DisablePlugin] for [b = false]. *)
Definition toggled (r : Reader) (b : bool) (id : string) (σ : fs)
  : fs * result () :=
  if b then EnablePlugin r id σ else DisablePlugin r id σ.

End claudeconfig.

(** ** The output port [pkg/application/port/output] *)

Module output.

(** The interface [PluginRepository] over a store of type [S]: the queries
    read the store, [Enable] and [Disable] return the new one. *)
Class PluginRepository (S : Type) := {
  ListAll : S → result (gmap string bool);
  ListEnabled : S → result (list string);
  IsEnabled : string → S → result bool;
  Enable : string → S → S * result ();
  Disable : string → S → S * result ();
}.

End output.

(** ** Package [pkg/infrastructure/repository] *)

Module repository.

(** The repository holds a [claudeconfig.Reader]; its store is the file
    system. *)
Record PluginRepository := { reader : claudeconfig.Reader }.

#[export] Instance PluginRepository_port `{MapRange} (r : PluginRepository)
  : output.PluginRepository fs := {|
  output.ListAll := claudeconfig.ListAllPlugins (reader r);
  output.ListEnabled := claudeconfig.ListEnabledPlugins (reader r);
  output.IsEnabled := claudeconfig.IsPluginEnabled (reader r);
  output.Enable := claudeconfig.EnablePlugin (reader r);
  output.Disable := claudeconfig.DisablePlugin (reader r);
|}.

End repository.

(** ** Package [pkg/application/usecase/plugin] *)

Module plugin.
Import output.

Record ToggleResult := {
  PluginID : string;
  Enabled : bool;
  WasAlready : bool;
  Message : string;
}.

(** [PluginInfo]; its field [Enabled] is [info_Enabled] here. *)
Record PluginInfo := {
  ID : string;
  Name : string;
  Publisher : string;
  info_Enabled : bool;
}.

Section usecase.
Context {S : Type} {port : PluginRepository S}.

Definition Enable (pluginID : string) (repo : S) : S * result ToggleResult :=
  match wrap "check plugin status" (IsEnabled pluginID repo) with
  | Ok currentlyEnabled =>
      if currentlyEnabled : bool then
        (repo, Ok {| PluginID := pluginID; Enabled := true; WasAlready := true;
                     Message := "Plugin '" +:+ pluginID +:+ "' is already enabled" |})
      else
        let '(repo, r) := output.Enable pluginID repo in
        match wrap "enable plugin" r with
        | Ok _ =>
            (repo, Ok {| PluginID := pluginID; Enabled := true;
                         WasAlready := false;
                         Message := "Plugin '" +:+ pluginID +:+ "' enabled successfully" |})
        | Err e => (repo, Err e)
        | Panic => (repo, Panic)
        end
  | Err e => (repo, Err e)
  | Panic => (repo, Panic)
  end.

Definition Disable (pluginID : string) (repo : S) : S * result ToggleResult :=
  match wrap "check plugin status" (IsEnabled pluginID repo) with
  | Ok currentlyEnabled =>
      if negb currentlyEnabled then
        (repo, Ok {| PluginID := pluginID; Enabled := false; WasAlready := true;
                     Message := "Plugin '" +:+ pluginID +:+ "' is already disabled" |})
      else
        let '(repo, r) := output.Disable pluginID repo in
        match wrap "disable plugin" r with
        | Ok _ =>
            (repo, Ok {| PluginID := pluginID; Enabled := false;
                         WasAlready := false;
                         Message := "Plugin '" +:+ pluginID +:+ "' disabled successfully" |})
        | Err e => (repo, Err e)
        | Panic => (repo, Panic)
        end
  | Err e => (repo, Err e)
  | Panic => (repo, Panic)
  end.


(** [sort.Slice] with [result[i].ID < result[j].ID]: ascending byte order
    of the IDs, which are pairwise distinct (they are the keys of a map). *)
Definition by_ID : relation PluginInfo := λ a b, String.le (ID a) (ID b).

#[export] Instance by_ID_dec : RelDecision by_ID.
Proof. intros a b. unfold by_ID. apply _. Defined.

Definition Execute `{MapRange} (enabledOnly : bool) (repo : S)
  : result (list PluginInfo) :=
  plugins ← ListAll repo;
  let result :=
    '(id, enabled) ← go_range plugins;
    if enabledOnly && negb enabled then [] else
    let '(name, publisher) := parsePluginID id in
    [{| ID := id; Name := name; Publisher := publisher;
        info_Enabled := enabled |}] in
  Ok (merge_sort by_ID result).

End usecase.

(** The test double of [usecase/plugin]: an in-memory map and an optional
    error returned by every method. *)
Record mockRepo := { plugins : gmap string bool; err : option error }.

#[export] Instance mockRepo_port `{MapRange} : PluginRepository mockRepo := {|
  ListAll m :=
    match err m with
    | Some e => Err e
    | None => Ok (plugins m)
    end;
  ListEnabled m :=
    match err m with
    | Some e => Err e
    | None => Ok ('(id, e) ← go_range (plugins m); if e : bool then [id] else [])
    end;
  IsEnabled pluginID m :=
    match err m with
    | Some e => Err e
    | None => Ok (default false (plugins m !! pluginID))
    end;
  output.Enable pluginID m :=
    match err m with
    | Some e => (m, Err e)
    | None => ({| plugins := <[pluginID := true]> (plugins m); err := err m |}, Ok ())
    end;
  output.Disable pluginID m :=
    match err m with
    | Some e => (m, Err e)
    | None => ({| plugins := <[pluginID := false]> (plugins m); err := err m |}, Ok ())
    end;
|}.

End plugin.

(** ** Package [strings], for a one-byte separator *)

(** [strings.HasPrefix(s, prefix)]. *)
Definition HasPrefix (s prefix : string) : bool := String.prefix prefix s.

(** [strings.Index(s, c)], [None] for [-1]. *)
Fixpoint Index (s : string) (c : ascii) : option nat :=
  match s with
  | "" => None
  | String a s' => if decide (a = c) then Some 0 else S <$> Index s' c
  end.

(** [strings.LastIndex(s, c)], scanning the indices below [n] downwards. *)
Fixpoint LastIndex_below (s : string) (c : ascii) (n : nat) : option nat :=
  match n with
  | 0 => None
  | S i =>
      if decide (String.get i s = Some c) then Some i
      else LastIndex_below s c i
  end.

Definition LastIndex (s : string) (c : ascii) : option nat :=
  LastIndex_below s c (String.length s).

Definition Contains (s : string) (c : ascii) : bool :=
  bool_decide (is_Some (Index s c)).

(** [strings.Count(s, c)]. *)
Fixpoint Count (s : string) (c : ascii) : nat :=
  match s with
  | "" => 0
  | String a s' => (if decide (a = c) then 1 else 0) + Count s' c
  end.

(** The slices [s[:i]] and [s[i:]], for [i] within the string. *)
Definition slice_to (s : string) (i : nat) : string := String.substring 0 i s.
Definition slice_from (s : string) (i : nat) : string :=
  String.substring i (String.length s - i) s.

(** ** Package [pkg/domain/mcp] *)

Module mcp.

Record PluginID := { Name : string; Publisher : string }.

(** The method [String]. *)
Definition PluginID_String (p : PluginID) : string :=
  Name p +:+ "@" +:+ Publisher p.

End mcp.

(** ** Package [cmd/mcp-plugin/command] *)

Module command.

(** The error a command returns: a plain message, or a message wrapping the
    error of a call.  What a command prints is not modelled. *)
Inductive failure :=
  | Message (msg : string)
  | Wrapped (msg : string) (e : error).

Inductive outcome :=
  | Done
  | Failed (f : failure)
  | Panicked.

(** The outcome of [if err := call; err != nil { return fmt.Errorf(msg, err) }]
    followed by a nil return. *)
Definition finish (msg : string) (r : result ()) : outcome :=
  match r with
  | Ok _ => Done
  | Err e => Failed (Wrapped msg e)
  | Panic => Panicked
  end.

(** [disable <plugin-id>] *)
Definition runDisable (pluginID : string) (σ : fs) : fs * outcome :=
  if negb (Contains pluginID "@") then
    (σ, Failed (Message
       ("invalid plugin ID format: expected 'name@publisher', got '"
        +:+ pluginID +:+ "'")))
  else
    match config.GetPluginStatus pluginID σ with
    | Ok (enabled, exists_) =>
        if negb exists_ then (σ, Failed (Message "plugin not found"))
        else if negb enabled then (σ, Done)
        else
          let '(σ, r) := config.SetPluginEnabled pluginID false σ in
          (σ, finish "failed to disable plugin" r)
    | Err e => (σ, Failed (Wrapped "failed to check plugin status" e))
    | Panic => (σ, Panicked)
    end.

(** [remove <name>] *)
Definition runRemove (name : string) (σ : fs) : fs * outcome :=
  match config.MCPServerExists name σ with
  | Ok exists_ =>
      if negb exists_ then (σ, Failed (Message "server not found"))
      else
        let '(σ, r) := config.RemoveMCPServer name σ in
        (σ, finish "failed to remove server" r)
  | Err e => (σ, Failed (Wrapped "failed to check server" e))
  | Panic => (σ, Panicked)
  end.

(** The flags of [install]. *)
Record installFlags := {
  installHTTP : bool;
  installURL : string;
  installUVX : bool;
  installCommand : string;
  installArgs : list string;
}.

(** The [switch] of [runInstall]: the entry to add; [package] is [args[1]]
    when [len(args) > 1]. *)
Definition installEntry (f : installFlags) (name : string)
    (package : option string) : failure + config.MCPServerEntry :=
  let entry t c a u :=
    {| config.entry_Type := t; config.entry_Command := c;
       config.entry_Args := a; config.entry_URL := u;
       config.entry_Headers := ∅; config.entry_Enabled := false |} in
  if installHTTP f then
    if decide (installURL f = "")
    then inl (Message "--url is required for HTTP servers")
    else inr (entry "http" "" [] (installURL f))
  else if installUVX f then
    inr (entry "stdio" "uvx" [default name package] "")
  else if decide (installCommand f ≠ "") then
    inr (entry "stdio" (installCommand f) (installArgs f) "")
  else
    match package with
    | Some pkg => inr (entry "stdio" "npx" ["-y"; pkg] "")
    | None =>
        inl (Message
          ("package name required for npx install (e.g., mcp-plugin install "
           +:+ name +:+ " @package/name)"))
    end.

(** [install <name> [package]] *)
Definition runInstall (f : installFlags) (name : string)
    (package : option string) (σ : fs) : fs * outcome :=
  match config.MCPServerExists name σ with
  | Ok exists_ =>
      if exists_ then
        (σ, Failed (Message
           ("MCP server '" +:+ name
            +:+ "' already exists. Use 'remove' first to reinstall")))
      else
        match installEntry f name package with
        | inl e => (σ, Failed e)
        | inr entry =>
            let '(σ, r) := config.AddMCPServer name entry σ in
            (σ, finish "failed to install server" r)
        end
  | Err e => (σ, Failed (Wrapped "failed to check server" e))
  | Panic => (σ, Panicked)
  end.

(** [update.go]: the package name and version in the arguments of [npx]. *)
Fixpoint extractPackageInfo (args : list string) : string * string :=
  match args with
  | [] => ("", "")
  | arg :: args =>
      if HasPrefix arg "-" then extractPackageInfo args
      else if Contains arg "@" then
        match Count arg "@" with
        | 1 =>
            if HasPrefix arg "@" then (arg, "")
            else
              (* strings.SplitN(arg, "@", 2) *)
              match Index arg "@" with
              | Some i => (slice_to arg i, slice_from arg (S i))
              | None => (arg, "")
              end
        | 2 =>
            match LastIndex arg "@" with
            | Some lastAt => (slice_to arg lastAt, slice_from arg (S lastAt))
            | None => (arg, "")
            end
        | _ => (arg, "")
        end
      else (arg, "")
  end.

End command.

(** ** Sample stores *)

Definition absent : file := File Missing true.
Definition holding (o : gmap string json) : file := File (Data (Doc (JObj o))) true.

(** A home directory with the given two documents and no plugin cache. *)
Definition home (claude settings : file) : fs :=
  {| claude_json := claude; settings_json := settings;
     plugins_cache := inl ENotExist |}.

Definition the_reader : claudeconfig.Reader :=
  {| claudeconfig.configDir := "/home/u/.claude" |}.
Definition the_repo : repository.PluginRepository :=
  {| repository.reader := the_reader |}.

(** [{"enabledPlugins": {...}}] *)
Definition flags (m : gmap string bool) : gmap string json :=
  {["enabledPlugins" := enc_bools m]}.

(** [{"mcpServers": {...}}] *)
Definition servers (m : gmap string json) : gmap string json :=
  {["mcpServers" := JObj m]}.

Definition npx_entry : config.MCPServerEntry :=
  {| config.entry_Type := ""; config.entry_Command := "npx";
     config.entry_Args := ["-y"; "@pkg/mcp"]; config.entry_URL := "";
     config.entry_Headers := ∅; config.entry_Enabled := false |}.

Definition the_config_reader : config.Reader := {| config.homeDir := "/home/u" |}.

(** [.claude.json] with one project holding the server ["zeta"], which has
    a url and no type. *)
Definition zeta_store : gmap string json :=
  {["projects" := JObj {["/work" := JObj (servers
      {["zeta" := JObj {["url" := JStr "https://zeta.example/mcp"]}]})]}]}.

(** A plugin cache with one descriptor, in the flat shape, holding the
    server ["alpha"], which has a command and no type. *)
Definition alpha_cache : list DirEntry :=
  [{| ent_Name := "official"; ent_IsDir := true;
      ent_ReadDir := Some
        [{| sub_Name := "alpha"; sub_IsDir := true;
            sub_mcp_json := holding {["alpha" := JObj {["command" := JStr "npx"]}]} |}] |}].

Definition zeta_alpha : fs :=
  {| claude_json := holding zeta_store; settings_json := absent;
     plugins_cache := inr alpha_cache |}.

(** Only the plugin cache can be read. *)
Definition alpha_only : fs :=
  {| claude_json := absent; settings_json := absent;
     plugins_cache := inr alpha_cache |}.

(** Only [.claude.json] can be read. *)
Definition zeta_only : fs := home (holding zeta_store) absent.

Definition zeta : config.MCPServer :=
  {| config.Name := "zeta"; config.Type_ := "http";
     config.URL := "https://zeta.example/mcp"; config.Command := "";
     config.Args := []; config.Headers := ∅; config.Enabled := false;
     config.Source := "/home/u/.claude.json" |}.

Definition alpha : config.MCPServer :=
  {| config.Name := "alpha"; config.Type_ := "command";
     config.URL := ""; config.Command := "npx";
     config.Args := []; config.Headers := ∅; config.Enabled := false;
     config.Source := "/home/u/.claude/plugins/cache/official/alpha/.mcp.json" |}.

(** * Properties *)

(** ** Plugin identifiers *)

Example parsePluginID_context7 :
  parsePluginID "context7@claude-plugins-official"
  = ("context7", "claude-plugins-official").
Proof. reflexivity. Qed.

Example parsePluginID_trailing_at : parsePluginID "name@" = ("name", "").
Proof. reflexivity. Qed.

Lemma substring_all (s : string) : String.substring 0 (String.length s) s = s.
Proof. induction s as [|c s IH]; simpl; [done | by rewrite IH]. Qed.

Lemma substring_app_prefix (p t : string) :
  String.substring 0 (String.length p) (p +:+ t) = p.
Proof.
  induction p as [|c p IH]; simpl.
  - by destruct t.
  - by rewrite IH.
Qed.

Lemma substring_app_skip (p t : string) (m : nat) :
  String.substring (String.length p) m (p +:+ t) = String.substring 0 m t.
Proof. induction p as [|c p IH]; simpl; done. Qed.

Lemma length_app (p t : string) :
  String.length (p +:+ t) = String.length p + String.length t.
Proof. induction p as [|c p IH]; simpl; [done | by rewrite IH]. Qed.

Lemma get_app_skip (p t : string) (n : nat) :
  String.get (String.length p + n) (p +:+ t) = String.get n t.
Proof. induction p as [|c p IH]; simpl; done. Qed.

Lemma parsePluginID_from_no_at (s : string) (n : nat) :
  no_at s → parsePluginID_from s n = (s, "").
Proof.
  intros Hs. induction n as [|n IH]; simpl; [done|].
  case_decide as Hg; [by apply Hs in Hg | done].
Qed.

Lemma get_at_boundary (p t : string) :
  String.get (String.length p) (p +:+ "@" +:+ t) = Some "@"%char.
Proof. induction p as [|c p IH]; simpl; done. Qed.

Lemma get_after_boundary (p t : string) (k : nat) :
  String.get (String.length p + S k) (p +:+ "@" +:+ t) = String.get k t.
Proof. by rewrite get_app_skip. Qed.

Lemma substring_after_boundary (p t : string) (m : nat) :
  String.substring (S (String.length p)) m (p +:+ "@" +:+ t)
  = String.substring 0 m t.
Proof. induction p as [|c p IH]; simpl; done. Qed.

Lemma length_boundary (p t : string) :
  String.length (p +:+ "@" +:+ t) = String.length p + 1 + String.length t.
Proof. rewrite !length_app. simpl. lia. Qed.

Lemma parsePluginID_from_last (p t : string) (k : nat) :
  no_at t → k ≤ String.length t →
  parsePluginID_from (p +:+ "@" +:+ t) (String.length p + 1 + k) = (p, t).
Proof.
  intros Ht. induction k as [|k IH]; intros Hk.
  - replace (String.length p + 1 + 0) with (S (String.length p)) by lia.
    cbn [parsePluginID_from]. rewrite get_at_boundary.
    case_decide; [|done].
    rewrite substring_app_prefix, substring_after_boundary, length_boundary.
    replace (String.length p + 1 + String.length t - S (String.length p))
      with (String.length t) by lia.
    by rewrite substring_all.
  - replace (String.length p + 1 + S k) with (S (String.length p + S k)) by lia.
    cbn [parsePluginID_from]. rewrite get_after_boundary.
    case_decide as Hg; [by apply Ht in Hg|].
    replace (String.length p + S k) with (String.length p + 1 + k) by lia.
    apply IH. lia.
Qed.

(** C9: [parsePluginID] splits at the last ['@']: a string [p@t] whose suffix
    [t] has no ['@'] yields [(p, t)], whatever [p] contains; a string with no
    ['@'] yields itself and an empty publisher; and
    ["multi@at@signs"] yields [("multi@at", "signs")]. *)
Theorem parsePluginID_last_at (p t s : string) :
  no_at t → no_at s →
  parsePluginID (p +:+ "@" +:+ t) = (p, t)
  ∧ parsePluginID s = (s, "")
  ∧ parsePluginID "multi@at@signs" = ("multi@at", "signs").
Proof.
  intros Ht Hs. split; [|split].
  - unfold parsePluginID. rewrite length_boundary.
    by apply parsePluginID_from_last.
  - by apply parsePluginID_from_no_at.
  - reflexivity.
Qed.

Lemma no_at_nil : no_at "".
Proof. by intros [|i]. Qed.

Lemma no_at_cons (c : ascii) (s : string) :
  c ≠ "@"%char → no_at s → no_at (String c s).
Proof. intros Hc Hs [|i]; simpl; [congruence | apply Hs]. Qed.

Lemma parsePluginID_last_at_witness :
  parsePluginID ("multi@at" +:+ "@" +:+ "signs") = ("multi@at", "signs")
  ∧ parsePluginID "no-publisher" = ("no-publisher", "")
  ∧ parsePluginID "multi@at@signs" = ("multi@at", "signs").
Proof.
  apply (parsePluginID_last_at "multi@at" "signs" "no-publisher");
    repeat (apply no_at_cons; [done|]); apply no_at_nil.
Defined.

(** ** Decoding what was encoded *)

Lemma dec_map_enc_bools (m : gmap string bool) :
  dec_map dec_bool (enc_bools m) = Some m.
Proof.
  unfold dec_map, enc_bools. rewrite decide_True.
  - f_equal. apply map_eq. intros k.
    rewrite lookup_omap, lookup_fmap. by destruct (m !! k).
  - intros k v. rewrite lookup_fmap. destruct (m !! k); naive_solver.
Qed.

Lemma dec_Settings_assign (o : gmap string json) (s : claudeconfig.Settings)
    (m : gmap string bool) :
  claudeconfig.dec_Settings (JObj o) = Some s →
  claudeconfig.dec_Settings (JObj (<["enabledPlugins" := enc_bools m]> o))
  = Some (claudeconfig.set_EnabledPlugins m s).
Proof.
  unfold claudeconfig.dec_Settings, dec_field.
  rewrite (lookup_insert_ne _ _ "$schema"), (lookup_insert_ne _ _ "permissions"),
    (lookup_insert_ne _ _ "hooks"), lookup_insert_eq by done.
  rewrite dec_map_enc_bools. intros Hs.
  destruct (match o !! "$schema" with Some v => _ | None => _ end); [|done].
  destruct (match o !! "permissions" with Some v => _ | None => _ end); [|done].
  destruct (match o !! "hooks" with Some v => _ | None => _ end); [|done].
  simpl in *.
  destruct (match o !! "enabledPlugins" with Some v => _ | None => _ end);
    [|done].
  simpl in *. by simplify_eq.
Qed.

Lemma dec_Settings_empty :
  claudeconfig.dec_Settings (JObj ∅)
  = Some {| claudeconfig.Schema := ""; claudeconfig.Permissions_ := None;
            claudeconfig.Hooks := ∅; claudeconfig.EnabledPlugins := ∅ |}.
Proof.
  unfold claudeconfig.dec_Settings, dec_field. by rewrite !lookup_empty.
Qed.

Lemma dec_Settings_generic (v : json) (s : claudeconfig.Settings) :
  claudeconfig.dec_Settings v = Some s →
  (∃ o, v = JObj o) ∨ v = JNull.
Proof. destruct v; naive_solver. Qed.

(** ** The settings store behind the repository *)

Section settings_store.
Context (r : claudeconfig.Reader).

Lemma ReadSettings_Ok_inv (σ : fs) (s : claudeconfig.Settings) :
  claudeconfig.ReadSettings r σ = Ok s →
  (node_of (settings_json σ) = Missing
   ∧ s = {| claudeconfig.Schema := ""; claudeconfig.Permissions_ := None;
            claudeconfig.Hooks := ∅; claudeconfig.EnabledPlugins := ∅ |})
  ∨ (∃ v, node_of (settings_json σ) = Data (Doc v)
          ∧ claudeconfig.dec_Settings v = Some s).
Proof.
  unfold claudeconfig.ReadSettings, ReadFile.
  destruct (node_of (settings_json σ)) as [| |[|v]]; simpl; try done.
  - intros [= <-]. by left.
  - destruct (claudeconfig.dec_Settings v) eqn:Hv; simpl; [|done].
    intros [= <-]. right. eauto.
Qed.

Lemma ReadSettings_Missing (σ : fs) :
  node_of (settings_json σ) = Missing →
  claudeconfig.ReadSettings r σ
  = Ok {| claudeconfig.Schema := ""; claudeconfig.Permissions_ := None;
          claudeconfig.Hooks := ∅; claudeconfig.EnabledPlugins := ∅ |}.
Proof. intros Hn. unfold claudeconfig.ReadSettings, ReadFile. by rewrite Hn. Qed.

Lemma ReadSettings_Doc (σ : fs) (v : json) (s : claudeconfig.Settings) :
  node_of (settings_json σ) = Data (Doc v) →
  claudeconfig.dec_Settings v = Some s →
  claudeconfig.ReadSettings r σ = Ok s.
Proof.
  intros Hn Hv. unfold claudeconfig.ReadSettings, ReadFile.
  rewrite Hn. simpl. by rewrite Hv.
Qed.

Lemma toggled_undecodable (b : bool) (id : string) (σ : fs) (v : json) :
  node_of (settings_json σ) = Data (Doc v) →
  claudeconfig.dec_Settings v = None →
  claudeconfig.ReadSettings r σ = Err (EWrap "parse settings" EUnmarshal)
  ∧ claudeconfig.toggled r b id σ
    = (σ, Err (EWrap "parse settings" EUnmarshal)).
Proof.
  intros Hn Hv.
  assert (claudeconfig.ReadSettings r σ
          = Err (EWrap "parse settings" EUnmarshal)) as Hr.
  { unfold claudeconfig.ReadSettings, ReadFile. rewrite Hn.
    unfold Unmarshal. by rewrite Hv. }
  split; [done|].
  unfold claudeconfig.toggled, claudeconfig.EnablePlugin,
    claudeconfig.DisablePlugin. rewrite Hr. by destruct b.
Qed.

(** The document a fresh write produces for a single flag. *)
Lemma enc_Settings_single (id : string) (b : bool) :
  claudeconfig.enc_Settings
    {| claudeconfig.Schema := ""; claudeconfig.Permissions_ := None;
       claudeconfig.Hooks := ∅;
       claudeconfig.EnabledPlugins := <[id := b]> ∅ |}
  = JObj (<["enabledPlugins" := enc_bools (<[id := b]> ∅)]> ∅).
Proof.
  unfold claudeconfig.enc_Settings. simpl.
  rewrite insert_empty, map_size_singleton, map_size_empty. simpl. done.
Qed.

Lemma toggled_Missing (b : bool) (id : string) (σ : fs) :
  node_of (settings_json σ) = Missing →
  claudeconfig.toggled r b id σ =
  if writable (settings_json σ) then
    (set_settings_json
       (File (Data (Doc (JObj (<["enabledPlugins" := enc_bools (<[id := b]> ∅)]> ∅)))) true)
       σ, Ok ())
  else (σ, Err EIO).
Proof.
  intros Hn.
  assert (∀ s, claudeconfig.EnabledPlugins s = <[id := b]> ∅ →
     claudeconfig.enc_Settings s = JObj (<["enabledPlugins" := enc_bools (<[id := b]> ∅)]> ∅) →
     claudeconfig.WriteSettings r s σ =
     if writable (settings_json σ) then
       (set_settings_json
         (File (Data (Doc (JObj (<["enabledPlugins" := enc_bools (<[id := b]> ∅)]> ∅)))) true)
         σ, Ok ())
     else (σ, Err EIO)) as Hw.
  { intros s _ Hs. unfold claudeconfig.WriteSettings, ReadFile, WriteFile.
    rewrite Hn, Hs. destruct (writable (settings_json σ)); [done|].
    by destruct σ. }
  unfold claudeconfig.toggled, claudeconfig.EnablePlugin, claudeconfig.DisablePlugin.
  rewrite ReadSettings_Missing by done.
  destruct b; simpl; apply Hw; simpl; try done;
    apply (enc_Settings_single id _).
Qed.

Lemma toggled_Doc (b : bool) (id : string) (σ : fs) (o : gmap string json)
    (s : claudeconfig.Settings) :
  node_of (settings_json σ) = Data (Doc (JObj o)) →
  claudeconfig.dec_Settings (JObj o) = Some s →
  claudeconfig.toggled r b id σ =
  if writable (settings_json σ) then
    (set_settings_json
       (File (Data (Doc (JObj (<["enabledPlugins" :=
           enc_bools (<[id := b]> (claudeconfig.EnabledPlugins s))]> o)))) true)
       σ, Ok ())
  else (σ, Err EIO).
Proof.
  intros Hn Hs.
  unfold claudeconfig.toggled, claudeconfig.EnablePlugin, claudeconfig.DisablePlugin.
  rewrite (ReadSettings_Doc σ _ s) by done.
  unfold claudeconfig.WriteSettings, ReadFile, WriteFile. rewrite Hn. simpl.
  destruct b, (writable (settings_json σ)); simpl; try done; by destruct σ.
Qed.

Lemma toggled_Null (b : bool) (id : string) (σ : fs) :
  node_of (settings_json σ) = Data (Doc JNull) →
  claudeconfig.toggled r b id σ = (σ, Panic).
Proof.
  intros Hn.
  unfold claudeconfig.toggled, claudeconfig.EnablePlugin, claudeconfig.DisablePlugin.
  rewrite (ReadSettings_Doc σ JNull _ Hn eq_refl).
  unfold claudeconfig.WriteSettings, ReadFile. rewrite Hn. by destruct b.
Qed.

Lemma toggled_cases (b : bool) (id : string) (σ : fs) :
  (∃ e, claudeconfig.ReadSettings r σ = Err e
        ∧ claudeconfig.toggled r b id σ = (σ, Err e))
  ∨ (node_of (settings_json σ) = Data (Doc JNull)
     ∧ claudeconfig.toggled r b id σ = (σ, Panic))
  ∨ (∃ s, claudeconfig.ReadSettings r σ = Ok s
          ∧ writable (settings_json σ) = false
          ∧ claudeconfig.toggled r b id σ = (σ, Err EIO))
  ∨ (∃ s σ', claudeconfig.ReadSettings r σ = Ok s
          ∧ writable (settings_json σ) = true
          ∧ claudeconfig.toggled r b id σ = (σ', Ok ())
          ∧ claude_json σ' = claude_json σ
          ∧ plugins_cache σ' = plugins_cache σ
          ∧ claudeconfig.ReadSettings r σ'
            = Ok (claudeconfig.set_EnabledPlugins
                    (<[id := b]> (claudeconfig.EnabledPlugins s)) s)).
Proof.
  destruct (node_of (settings_json σ)) as [| |[|v]] eqn:Hn.
  - rewrite (toggled_Missing b id σ Hn), (ReadSettings_Missing σ Hn).
    destruct (writable (settings_json σ)) eqn:Hw.
    + do 3 right. eexists _, _. repeat split; try done.
      eapply ReadSettings_Doc; [reflexivity|].
      apply dec_Settings_assign, dec_Settings_empty.
    + right. right. left. eauto.
  - left. exists (EWrap "read settings" EIO).
    unfold claudeconfig.toggled, claudeconfig.EnablePlugin,
      claudeconfig.DisablePlugin, claudeconfig.ReadSettings, ReadFile.
    rewrite Hn. by destruct b.
  - left. exists (EWrap "parse settings" EUnmarshal).
    unfold claudeconfig.toggled, claudeconfig.EnablePlugin,
      claudeconfig.DisablePlugin, claudeconfig.ReadSettings, ReadFile.
    rewrite Hn. by destruct b.
  - destruct (claudeconfig.dec_Settings v) as [s|] eqn:Hv.
    + destruct (dec_Settings_generic v s Hv) as [[o ->] | ->].
      * rewrite (toggled_Doc b id σ o s Hn Hv), (ReadSettings_Doc σ _ s Hn Hv).
        destruct (writable (settings_json σ)) eqn:Hw.
        -- do 3 right. eexists _, _. repeat split; try done.
           eapply ReadSettings_Doc; [reflexivity|].
           by apply dec_Settings_assign.
        -- right. right. left. eauto.
      * right. left. split; [done|]. by apply toggled_Null.
    + left. exists (EWrap "parse settings" EUnmarshal).
      by apply toggled_undecodable with v.
Qed.

Lemma toggled_Ok (b : bool) (id : string) (σ σ' : fs) :
  claudeconfig.toggled r b id σ = (σ', Ok ()) →
  ∃ s, claudeconfig.ReadSettings r σ = Ok s
       ∧ claudeconfig.ReadSettings r σ'
         = Ok (claudeconfig.set_EnabledPlugins
                 (<[id := b]> (claudeconfig.EnabledPlugins s)) s).
Proof.
  intros Ht.
  destruct (toggled_cases b id σ)
    as [(e & _ & H) | [(_ & H) | [(s & _ & _ & H) | (s & σ1 & Hs & _ & H & _ & _ & Hr)]]];
    rewrite H in Ht; simplify_eq. eauto.
Qed.


Lemma ListAllPlugins_toggled (b : bool) (id : string) (σ σ' : fs)
    (m : gmap string bool) :
  claudeconfig.ListAllPlugins r σ = Ok m →
  claudeconfig.toggled r b id σ = (σ', Ok ()) →
  claudeconfig.ListAllPlugins r σ' = Ok (<[id := b]> m).
Proof.
  intros Hm (s & Hs & Hr)%toggled_Ok. unfold claudeconfig.ListAllPlugins in *.
  rewrite Hs in Hm. rewrite Hr. simpl in *. by simplify_eq.
Qed.

End settings_store.

(** ** The toggle use case over any repository *)

Section toggle_generic.
Context {S : Type} {port : output.PluginRepository S}.


Lemma Disable_already (id : string) (repo : S) :
  output.IsEnabled id repo = Ok false →
  ∃ res, plugin.Disable id repo = (repo, Ok res)
         ∧ plugin.Enabled res = false ∧ plugin.WasAlready res = true.
Proof. intros Hi. unfold plugin.Disable. rewrite Hi. simpl. eauto. Qed.



End toggle_generic.

(** ** The toggle use case over the settings store *)

Section toggle.
Context `{MapRange} (repo : repository.PluginRepository).

Local Abbreviation port := (repository.PluginRepository_port repo).
Local Abbreviation rd := (repository.reader repo).


(** C1, as the code has it: [Enable] on a plugin with no entry in the
    enabled-plugin map does not fail; it reports success with [WasAlready]
    unset and the store then holds the entry [id ↦ true] (when the settings
    file can be written and is not the document [null]). *)
Theorem Enable_unknown_registers (id : string) (σ : fs) (m : gmap string bool) :
  claudeconfig.ListAllPlugins rd σ = Ok m →
  m !! id = None →
  writable (settings_json σ) = true →
  node_of (settings_json σ) ≠ Data (Doc JNull) →
  ∃ σ' res, plugin.Enable (port := port) id σ = (σ', Ok res)
            ∧ plugin.Enabled res = true ∧ plugin.WasAlready res = false
            ∧ claudeconfig.ListAllPlugins rd σ' = Ok (<[id := true]> m).
Proof.
  intros Hm Hid Hw Hnull.
  assert (claudeconfig.IsPluginEnabled rd id σ = Ok false) as Hi.
  { unfold claudeconfig.ListAllPlugins, claudeconfig.IsPluginEnabled in *.
    destruct (claudeconfig.ReadSettings rd σ) as [s| |]; simpl in *; try done.
    simplify_eq. by rewrite Hid. }
  destruct (toggled_cases rd true id σ)
    as [(e & He & _) | [(Hn & _) | [(s & _ & Hw' & _) | (s & σ' & Hs & _ & Ht & _ & _ & Hr)]]].
  - unfold claudeconfig.ListAllPlugins in Hm. by rewrite He in Hm.
  - done.
  - congruence.
  - exists σ'. eexists. unfold plugin.Enable. simpl. rewrite Hi. simpl.
    change (claudeconfig.EnablePlugin rd id σ)
      with (claudeconfig.toggled rd true id σ).
    rewrite Ht. simpl. repeat split; try done.
    by apply (ListAllPlugins_toggled rd true id σ).
Qed.

End toggle.


(** The case "enable new plugin" of the use case's own test, on the test
    double. *)
Example Enable_new_plugin_mock :
  plugin.Enable (port := plugin.mockRepo_port (H := key_order)) "new@pub"
    {| plugin.plugins := ∅; plugin.err := None |}
  = ({| plugin.plugins := {["new@pub" := true]}; plugin.err := None |},
     Ok {| plugin.PluginID := "new@pub"; plugin.Enabled := true;
           plugin.WasAlready := false;
           plugin.Message := "Plugin 'new@pub' enabled successfully" |}).
Proof. vm_compute. reflexivity. Qed.

(** C1 fails as stated: with no entry for ["new@pub"] in the enabled-plugin
    map, [Enable] returns success and the store then has the entry. *)
Lemma Enable_unknown_succeeds :
  let σ := home absent (holding (flags ∅)) in
  let σ' := home absent (holding (flags {["new@pub" := true]})) in
  let port := repository.PluginRepository_port (H := key_order) the_repo in
  claudeconfig.ListAllPlugins the_reader σ = Ok ∅
  ∧ plugin.Enable (port := port) "new@pub" σ
    = (σ', Ok {| plugin.PluginID := "new@pub"; plugin.Enabled := true;
                 plugin.WasAlready := false;
                 plugin.Message := "Plugin 'new@pub' enabled successfully" |})
  ∧ claudeconfig.ListAllPlugins the_reader σ' = Ok {["new@pub" := true]}.
Proof. vm_compute. auto. Qed.

Lemma Enable_unknown_registers_witness :
  let σ := home absent (holding (flags {["old@pub" := false]})) in
  let port := repository.PluginRepository_port (H := key_order) the_repo in
  ∃ σ' res, plugin.Enable (port := port) "new@pub" σ = (σ', Ok res)
            ∧ plugin.Enabled res = true ∧ plugin.WasAlready res = false
            ∧ claudeconfig.ListAllPlugins the_reader σ'
              = Ok (<["new@pub" := true]> {["old@pub" := false]}).
Proof.
  intros σ port.
  apply (@Enable_unknown_registers key_order the_repo "new@pub" σ
           {["old@pub" := false]}).
  - vm_compute. reflexivity.
  - vm_compute. reflexivity.
  - reflexivity.
  - simpl. discriminate.
Defined.

(** ** Field preservation *)



(** ** Mutations on a missing store *)

(** C4 fails as stated: with no [settings.json], [EnablePlugin] returns no
    error and creates the file. *)
Lemma EnablePlugin_creates_store :
  claudeconfig.EnablePlugin the_reader "new@pub" (home absent absent)
  = (home absent (holding (flags {["new@pub" := true]})), Ok ()).
Proof. vm_compute. reflexivity. Qed.

(** C4, as the code has it: the writer's [SetPluginEnabled], [AddMCPServer]
    and [RemoveMCPServer] fail with the read error when their file does not
    exist and leave the file system as it is; the reader's [EnablePlugin] and
    [DisablePlugin] instead write a fresh document with the single flag when
    [settings.json] does not exist and can be created. *)
Theorem mutation_on_missing_store (r : claudeconfig.Reader) (id name : string)
    (b : bool) (entry : config.MCPServerEntry) (σ : fs) :
  (node_of (settings_json σ) = Missing →
   config.SetPluginEnabled id b σ
   = (σ, Err (EWrap "failed to read settings" ENotExist)))
  ∧ (node_of (claude_json σ) = Missing →
     config.AddMCPServer name entry σ
     = (σ, Err (EWrap "failed to read claude.json" ENotExist))
     ∧ config.RemoveMCPServer name σ
       = (σ, Err (EWrap "failed to read claude.json" ENotExist)))
  ∧ (node_of (settings_json σ) = Missing →
     writable (settings_json σ) = true →
     claudeconfig.toggled r b id σ
     = (set_settings_json (holding (flags {[id := b]})) σ, Ok ())).
Proof.
  split; [|split].
  - intros Hn. unfold config.SetPluginEnabled, ReadFile. by rewrite Hn.
  - intros Hn. unfold config.AddMCPServer, config.RemoveMCPServer, ReadFile.
    by rewrite Hn.
  - intros Hn Hw. rewrite toggled_Missing, Hw by done.
    unfold holding, flags. by rewrite !insert_empty.
Qed.

Lemma mutation_on_missing_store_witness :
  let σ := home absent absent in
  config.SetPluginEnabled "new@pub" true σ
  = (σ, Err (EWrap "failed to read settings" ENotExist))
  ∧ (config.AddMCPServer "x" npx_entry σ
     = (σ, Err (EWrap "failed to read claude.json" ENotExist))
     ∧ config.RemoveMCPServer "x" σ
       = (σ, Err (EWrap "failed to read claude.json" ENotExist)))
  ∧ claudeconfig.toggled the_reader true "new@pub" σ
    = (set_settings_json (holding (flags {["new@pub" := true]})) σ, Ok ()).
Proof.
  intros σ.
  destruct (mutation_on_missing_store the_reader "new@pub" "x" true npx_entry σ)
    as (H1 & H2 & H3).
  split; [by apply H1|]. split; [by apply H2|]. by apply H3.
Defined.

(** ** The Global Server Store *)

Lemma managed_servers_Ok_inv (σ : fs) (ms : option (gmap string json)) :
  config.managed_servers σ = Ok ms →
  ∃ v config, node_of (claude_json σ) = Data (Doc v)
              ∧ dec_generic v = Some config
              ∧ config.sub_map "mcpServers" config = ms.
Proof.
  unfold config.managed_servers, ReadFile.
  destruct (node_of (claude_json σ)) as [| |[|v]]; simpl; try done.
  destruct (dec_generic v) as [config|] eqn:Hv; simpl; [|done].
  intros [= <-]. eauto.
Qed.

Lemma AddMCPServer_exists (name : string) (entry : config.MCPServerEntry)
    (σ : fs) (ms : gmap string json) :
  config.managed_servers σ = Ok (Some ms) →
  is_Some (ms !! name) →
  config.AddMCPServer name entry σ = (σ, Err (EAlreadyExists name)).
Proof.
  intros (v & config & Hn & Hv & Hs)%managed_servers_Ok_inv Hname.
  unfold config.AddMCPServer, ReadFile. rewrite Hn. simpl. rewrite Hv. simpl.
  rewrite Hs. simpl. by rewrite decide_True.
Qed.

Lemma AddMCPServer_exists_inv (name : string) (entry : config.MCPServerEntry)
    (σ : fs) :
  (config.AddMCPServer name entry σ).2 = Err (EAlreadyExists name) →
  ∃ ms, config.managed_servers σ = Ok (Some ms) ∧ is_Some (ms !! name).
Proof.
  unfold config.AddMCPServer, config.managed_servers, ReadFile, WriteFile.
  destruct (node_of (claude_json σ)) as [| |[|v]]; simpl; try done.
  destruct (dec_generic v) as [config|] eqn:Hv; simpl; [|done].
  destruct (config.sub_map "mcpServers" config) as [ms|] eqn:Hs; simpl.
  - case_decide as Hname; [eauto|].
    destruct config as [o|]; simpl; [|done].
    by destruct (writable (claude_json σ)).
  - rewrite lookup_empty. rewrite decide_False by (by intros [? ?]).
    destruct config as [o|]; simpl; [|done].
    by destruct (writable (claude_json σ)).
Qed.

Lemma AddMCPServer_Ok_inv (name : string) (entry : config.MCPServerEntry)
    (σ σ' : fs) :
  config.AddMCPServer name entry σ = (σ', Ok ()) →
  ∃ ms, config.managed_servers σ' = Ok (Some ms) ∧ is_Some (ms !! name).
Proof.
  unfold config.AddMCPServer, config.managed_servers, ReadFile, WriteFile.
  destruct (node_of (claude_json σ)) as [| |[|v]]; simpl; try done.
  destruct (dec_generic v) as [config|] eqn:Hv; simpl; [|done].
  case_decide; [done|].
  destruct config as [o|]; simpl; [|done].
  destruct (writable (claude_json σ)); simpl; [|done].
  intros [= <-]. simpl. unfold config.sub_map. simpl.
  rewrite lookup_insert_eq. eexists. split; [done|].
  by rewrite lookup_insert_eq.
Qed.

Lemma RemoveMCPServer_absent (name : string) (σ : fs)
    (ms : option (gmap string json)) :
  config.managed_servers σ = Ok ms →
  ms ≫= (.!! name) = None →
  config.RemoveMCPServer name σ = (σ, Err (ENotFound name)).
Proof.
  intros (v & config & Hn & Hv & Hs)%managed_servers_Ok_inv Hname.
  unfold config.RemoveMCPServer, ReadFile. rewrite Hn. simpl. rewrite Hv. simpl.
  rewrite Hs. destruct ms as [m|]; simpl in *; [|done].
  rewrite decide_False; [done|]. rewrite Hname. by intros [? ?].
Qed.

Lemma RemoveMCPServer_Ok_inv (name : string) (σ σ' : fs) :
  config.RemoveMCPServer name σ = (σ', Ok ()) →
  ∃ ms, config.managed_servers σ' = Ok (Some ms) ∧ ms !! name = None.
Proof.
  unfold config.RemoveMCPServer, config.managed_servers, ReadFile, WriteFile.
  destruct (node_of (claude_json σ)) as [| |[|v]]; simpl; try done.
  destruct (dec_generic v) as [config|] eqn:Hv; simpl; [|done].
  destruct (config.sub_map "mcpServers" config) as [ms|] eqn:Hs; simpl; [|done].
  case_decide; [|done].
  destruct config as [o|]; simpl; [|done].
  destruct (writable (claude_json σ)); simpl; [|done].
  intros [= <-]. simpl. unfold config.sub_map. simpl.
  rewrite lookup_insert_eq. eexists. split; [done|].
  by rewrite lookup_delete_eq.
Qed.

(** C8: [addServer] fails with [AlreadyExists] exactly when the name is a key
    of the managed ["mcpServers"] map (keys are compared as they are), so a
    second [addServer] of the name after a successful one fails;
    [removeServer] fails with [NotFound] when the managed map is absent or
    lacks the name, so a second [removeServer] after a successful one
    fails. *)
Theorem addServer_removeServer_errors (name : string)
    (entry entry' : config.MCPServerEntry) (σ : fs) :
  ((config.AddMCPServer name entry σ).2 = Err (EAlreadyExists name)
   ↔ ∃ ms, config.managed_servers σ = Ok (Some ms) ∧ is_Some (ms !! name))
  ∧ (∀ σ', config.AddMCPServer name entry σ = (σ', Ok ()) →
           config.AddMCPServer name entry' σ' = (σ', Err (EAlreadyExists name)))
  ∧ (∀ ms, config.managed_servers σ = Ok ms → ms ≫= (.!! name) = None →
           config.RemoveMCPServer name σ = (σ, Err (ENotFound name)))
  ∧ (∀ σ', config.RemoveMCPServer name σ = (σ', Ok ()) →
           config.RemoveMCPServer name σ' = (σ', Err (ENotFound name))).
Proof.
  repeat split.
  - apply AddMCPServer_exists_inv.
  - intros (ms & Hm & Hname). by rewrite (AddMCPServer_exists _ _ _ ms).
  - intros σ' (ms & Hm & Hname)%AddMCPServer_Ok_inv.
    by apply AddMCPServer_exists with ms.
  - apply RemoveMCPServer_absent.
  - intros σ' (ms & Hm & Hname)%RemoveMCPServer_Ok_inv.
    by apply RemoveMCPServer_absent with (Some ms).
Qed.

Lemma addServer_removeServer_errors_witness :
  let σ0 := home (holding (servers ∅)) absent in
  let σ1 := home (holding (servers {["x" := JObj (config.serverConfig npx_entry)]}))
              absent in
  config.AddMCPServer "x" npx_entry σ0 = (σ1, Ok ())
  ∧ (config.AddMCPServer "x" npx_entry σ1).2 = Err (EAlreadyExists "x")
  ∧ config.AddMCPServer "x" npx_entry σ1 = (σ1, Err (EAlreadyExists "x"))
  ∧ config.RemoveMCPServer "x" σ1 = (σ0, Ok ())
  ∧ config.RemoveMCPServer "x" σ0 = (σ0, Err (ENotFound "x"))
  ∧ config.RemoveMCPServer "x" (home (holding ∅) absent)
    = (home (holding ∅) absent, Err (ENotFound "x")).
Proof.
  intros σ0 σ1.
  assert (config.AddMCPServer "x" npx_entry σ0 = (σ1, Ok ())) as Ha
    by (vm_compute; reflexivity).
  assert (config.RemoveMCPServer "x" σ1 = (σ0, Ok ())) as Hr
    by (vm_compute; reflexivity).
  destruct (addServer_removeServer_errors "x" npx_entry npx_entry σ0)
    as (_ & A2 & _ & _).
  destruct (addServer_removeServer_errors "x" npx_entry npx_entry σ1)
    as (A1 & _ & _ & R2).
  destruct (addServer_removeServer_errors "x" npx_entry npx_entry
              (home (holding ∅) absent)) as (_ & _ & R1 & _).
  split; [done|]. split.
  { apply A1. exists {["x" := JObj (config.serverConfig npx_entry)]}.
    split; [vm_compute; reflexivity|]. rewrite lookup_singleton_eq. eauto. }
  split; [exact (A2 _ Ha)|]. split; [done|]. split; [exact (R2 _ Hr)|].
  apply (R1 None); [vm_compute; reflexivity | reflexivity].
Defined.

(** Names are matched exactly: ["X"] is free when only ["x"] is present. *)
Example addServer_case_sensitive :
  (config.AddMCPServer "X" npx_entry
     (home (holding (servers {["x" := JObj ∅]})) absent)).2 = Ok ().
Proof. vm_compute. reflexivity. Qed.

(** ** The aggregator *)

Example ListMCPServers_zeta_alpha :
  (config.ListMCPServers (H := key_order) the_config_reader zeta_alpha).1
  = [zeta; alpha].
Proof. vm_compute. reflexivity. Qed.

Section aggregator.
Context `{MapRange} (r : config.Reader).

Lemma elem_of_go_range {V} (m : gmap string V) (k : string) (v : V) :
  (k, v) ∈ go_range m ↔ m !! k = Some v.
Proof. by rewrite go_range_perm, elem_of_map_to_list. Qed.

Lemma newServer_Name (name source : string) (cfg : config.MCPServerConfig) :
  config.Name (config.newServer name cfg source) = name.
Proof. done. Qed.


Lemma applyEnabled_Name (flags : gmap string bool) (s : config.MCPServer) :
  config.Name (config.applyEnabled flags s) = config.Name s.
Proof. unfold config.applyEnabled. by destruct (flags !! config.Name s). Qed.


Lemma readClaudeJSON_origin (σ : fs) (cs : list config.MCPServer)
    (s : config.MCPServer) :
  config.readClaudeJSON r σ = Ok cs → s ∈ cs →
  ∃ name cfg source, config.origin σ name cfg
                     ∧ s = config.newServer name cfg source.
Proof.
  unfold config.readClaudeJSON.
  destruct (ReadFile (claude_json σ)) as [data| |] eqn:Hd; simpl; try done.
  destruct (Unmarshal config.dec_ClaudeConfig data) as [c| |] eqn:Hc;
    simpl; try done.
  intros [= <-].
  intros ([project proj] & Hs & Hp%elem_of_go_range)%list_elem_of_bind.
  apply list_elem_of_bind in Hs as ([name cfg] & Hs & Hn%elem_of_go_range).
  apply list_elem_of_singleton in Hs as ->.
  eexists name, cfg, _. split; [|done]. by eapply config.origin_project.
Qed.

Lemma readPluginConfigs_file_origin (σ : fs) (mcpPath : string) (data : content)
    (s : config.MCPServer) :
  config.descriptor σ data →
  s ∈ config.readPluginConfigs_file mcpPath data →
  ∃ name cfg source, config.origin σ name cfg
                     ∧ s = config.newServer name cfg source.
Proof.
  intros Hdesc. unfold config.readPluginConfigs_file.
  intros [Hs|Hs]%elem_of_app.
  - destruct (Unmarshal (dec_map config.dec_MCPServerConfig) data)
      as [raw| |] eqn:Hraw; try by apply elem_of_nil in Hs.
    apply list_elem_of_bind in Hs as ([name cfg] & Hs & Hn%elem_of_go_range).
    case_decide as Hname; [by apply elem_of_nil in Hs|].
    apply list_elem_of_singleton in Hs as ->.
    eexists name, cfg, _. split; [|done]. by eapply config.origin_flat.
  - destruct (Unmarshal config.dec_PluginMCPConfig data)
      as [pc| |] eqn:Hpc; try by apply elem_of_nil in Hs.
    case_decide; [|by apply elem_of_nil in Hs].
    apply list_elem_of_bind in Hs as ([name cfg] & Hs & Hn%elem_of_go_range).
    apply list_elem_of_singleton in Hs as ->.
    eexists name, cfg, _. split; [|done]. by eapply config.origin_wrapped.
Qed.

Lemma readPluginConfigs_origin (σ : fs) (ps : list config.MCPServer)
    (s : config.MCPServer) :
  config.readPluginConfigs r σ = Ok ps → s ∈ ps →
  ∃ name cfg source, config.origin σ name cfg
                     ∧ s = config.newServer name cfg source.
Proof.
  unfold config.readPluginConfigs.
  destruct (plugins_cache σ) as [e|entries] eqn:Hc; [done|].
  intros [= <-].
  intros (entry & Hs & Hentry)%list_elem_of_bind.
  destruct (ent_IsDir entry) eqn:Hdir; simpl in Hs;
    [|by apply elem_of_nil in Hs].
  destruct (ent_ReadDir entry) as [subs|] eqn:Hsubs;
    [|by apply elem_of_nil in Hs].
  apply list_elem_of_bind in Hs as (sub & Hs & Hsub).
  destruct (sub_IsDir sub) eqn:Hsdir; simpl in Hs;
    [|by apply elem_of_nil in Hs].
  destruct (ReadFile (sub_mcp_json sub)) as [data| |] eqn:Hdata;
    try by apply elem_of_nil in Hs.
  eapply readPluginConfigs_file_origin; [|done].
  by exists entries, entry, subs, sub.
Qed.


(** C7: [ListMCPServers] never returns an error.  When one of the two
    sources fails, the result is the entries of the other one, with the
    enabled overlay; when both fail, the result is empty. *)
Theorem listAll_partial_failure (σ : fs) :
  (config.ListMCPServers r σ).2 = None
  ∧ (∀ e ps, config.readClaudeJSON r σ = Err e →
             config.readPluginConfigs r σ = Ok ps →
             (config.ListMCPServers r σ).1
             = config.applyEnabled (config.enabledFlags r σ) <$> ps)
  ∧ (∀ cs e, config.readClaudeJSON r σ = Ok cs →
             config.readPluginConfigs r σ = Err e →
             (config.ListMCPServers r σ).1
             = config.applyEnabled (config.enabledFlags r σ) <$> cs)
  ∧ (∀ e1 e2, config.readClaudeJSON r σ = Err e1 →
              config.readPluginConfigs r σ = Err e2 →
              config.ListMCPServers r σ = ([], None))
  ∧ (node_of (claude_json σ) = Missing →
     config.readClaudeJSON r σ = Err ENotExist).
Proof.
  unfold config.ListMCPServers. repeat split.
  - by intros e ps -> ->.
  - by intros cs e -> ->.
  - by intros e1 e2 -> ->.
  - intros Hn. unfold config.readClaudeJSON, ReadFile. by rewrite Hn.
Qed.

End aggregator.


Lemma listAll_partial_failure_witness :
  (config.ListMCPServers (H := key_order) the_config_reader alpha_only).1 = [alpha]
  ∧ (config.ListMCPServers (H := key_order) the_config_reader zeta_only).1 = [zeta]
  ∧ config.ListMCPServers (H := key_order) the_config_reader (home absent absent)
    = ([], None)
  ∧ config.readClaudeJSON (H := key_order) the_config_reader (home absent absent)
    = Err ENotExist.
Proof.
  destruct (@listAll_partial_failure key_order the_config_reader alpha_only)
    as (_ & A & _).
  destruct (@listAll_partial_failure key_order the_config_reader zeta_only)
    as (_ & _ & Z & _).
  destruct (@listAll_partial_failure key_order the_config_reader
              (home absent absent)) as (_ & _ & _ & N & M).
  split; [|split; [|split]].
  - rewrite (A ENotExist [alpha]); vm_compute; reflexivity.
  - rewrite (Z [zeta] ENotExist); vm_compute; reflexivity.
  - apply (N ENotExist ENotExist); vm_compute; reflexivity.
  - by apply M.
Defined.

(** ** Ordering of the listings *)

(** C6 fails as stated: the server list of [ListMCPServers] has ["zeta"]
    (from [.claude.json]) before ["alpha"] (from the plugin cache). *)
Lemma ListMCPServers_not_sorted :
  ¬ StronglySorted config.by_Name
      (config.ListMCPServers (H := key_order) the_config_reader zeta_alpha).1.
Proof.
  rewrite ListMCPServers_zeta_alpha. intros Hs.
  apply StronglySorted_inv in Hs as [_ Hz].
  apply Forall_cons in Hz as [Hz _]. vm_compute in Hz. done.
Qed.

Section listing.
Context {S : Type} {port : output.PluginRepository S} `{MapRange}.

#[local] Instance by_ID_trans : Transitive plugin.by_ID.
Proof. intros a b c. unfold plugin.by_ID. apply transitivity. Qed.

#[local] Instance by_ID_total : Total plugin.by_ID.
Proof. intros a b. unfold plugin.by_ID. apply total, _. Qed.

(** C6, as the code has it: [ListUseCase.Execute] returns the plugins of the
    repository (the enabled ones when [enabledOnly] is set) sorted by ID in
    ascending byte order; [ListMCPServers] returns the entries of
    [.claude.json] followed by those of the plugin cache, unsorted. *)
Theorem listing_order (enabledOnly : bool) (repo : S)
    (l : list plugin.PluginInfo) (r : config.Reader) (σ : fs) :
  plugin.Execute enabledOnly repo = Ok l →
  StronglySorted plugin.by_ID l
  ∧ (∃ ms, output.ListAll repo = Ok ms
       ∧ ∀ p, p ∈ l ↔
           ∃ enabled, ms !! plugin.ID p = Some enabled
             ∧ (enabledOnly = true → enabled = true)
             ∧ p = {| plugin.ID := plugin.ID p;
                      plugin.Name := (parsePluginID (plugin.ID p)).1;
                      plugin.Publisher := (parsePluginID (plugin.ID p)).2;
                      plugin.info_Enabled := enabled |})
  ∧ (config.ListMCPServers r σ).1
    = config.applyEnabled (config.enabledFlags r σ)
      <$> (match config.readClaudeJSON r σ with Ok cs => cs | _ => [] end
           ++ match config.readPluginConfigs r σ with Ok ps => ps | _ => [] end).
Proof.
  unfold plugin.Execute.
  destruct (output.ListAll repo) as [ms| |] eqn:Hms; simpl; try done.
  intros [= <-]. split; [apply StronglySorted_merge_sort; apply _|]. split.
  - exists ms. split; [done|]. intros p. rewrite merge_sort_Permutation.
    rewrite list_elem_of_bind. split.
    + intros ([id enabled] & Hp & Hid%elem_of_go_range).
      destruct (parsePluginID id) as [name publisher] eqn:Hparse.
      destruct (enabledOnly && negb enabled) eqn:Hf;
        [by apply elem_of_nil in Hp|].
      apply list_elem_of_singleton in Hp as ->. simpl. rewrite Hparse.
      exists enabled. repeat split; [done|].
      intros ->. by destruct enabled.
    + intros (enabled & Hid & Hen & Hp).
      exists (plugin.ID p, enabled). split; [|by apply elem_of_go_range].
      destruct (parsePluginID (plugin.ID p)) as [name publisher].
      assert (enabledOnly && negb enabled = false) as ->.
      { destruct enabledOnly; [|done]. by rewrite Hen. }
      rewrite Hp. simpl. apply list_elem_of_singleton. done.
  - unfold config.ListMCPServers.
    destruct (config.readClaudeJSON r σ), (config.readPluginConfigs r σ);
      simpl; by rewrite ?app_nil_r.
Qed.

End listing.

Lemma listing_order_witness :
  let repo := {| plugin.plugins :=
                   {["serena@official" := false; "context7@official" := true]};
                 plugin.err := None |} in
  let l := [ {| plugin.ID := "context7@official"; plugin.Name := "context7";
                plugin.Publisher := "official"; plugin.info_Enabled := true |};
             {| plugin.ID := "serena@official"; plugin.Name := "serena";
                plugin.Publisher := "official"; plugin.info_Enabled := false |} ] in
  plugin.Execute (port := plugin.mockRepo_port (H := key_order)) (H := key_order)
    false repo = Ok l
  ∧ StronglySorted plugin.by_ID l.
Proof.
  intros repo l.
  assert (plugin.Execute (port := plugin.mockRepo_port (H := key_order))
            (H := key_order) false repo = Ok l) as He
    by (vm_compute; reflexivity).
  split; [done|].
  exact (proj1 (@listing_order _ (plugin.mockRepo_port (H := key_order))
                  key_order false repo l the_config_reader zeta_alpha He)).
Defined.

(** The same holds whatever order the runtime picks for map iteration: each
    map of this store has a single entry. *)
Lemma go_range_singleton `{MapRange} {V} (k : string) (v : V) :
  go_range ({[k := v]} : gmap string V) = [(k, v)].
Proof.
  apply Permutation_singleton_r. by rewrite go_range_perm, map_to_list_singleton.
Qed.

Lemma ListMCPServers_zeta_alpha_any_order `{MapRange} :
  (config.ListMCPServers the_config_reader zeta_alpha).1 = [zeta; alpha].
Proof.
  assert (Unmarshal config.dec_ClaudeConfig (Doc (JObj zeta_store))
          = Ok {| config.Projects := {["/work" :=
                 {| config.proj_MCPServers := {["zeta" :=
                    {| config.cfg_Type := "";
                       config.cfg_URL := "https://zeta.example/mcp";
                       config.cfg_Command := ""; config.cfg_Args := [];
                       config.cfg_Headers := ∅ |}]} |}]} |}) as Hz
    by (vm_compute; reflexivity).
  assert (Unmarshal (dec_map config.dec_MCPServerConfig)
            (Doc (JObj {["alpha" := JObj {["command" := JStr "npx"]}]}))
          = Ok {["alpha" := {| config.cfg_Type := ""; config.cfg_URL := "";
                               config.cfg_Command := "npx"; config.cfg_Args := [];
                               config.cfg_Headers := ∅ |}]}) as Ha
    by (vm_compute; reflexivity).
  assert (Unmarshal config.dec_PluginMCPConfig
            (Doc (JObj {["alpha" := JObj {["command" := JStr "npx"]}]}))
          = Ok {| config.MCPServers := ∅ |}) as Hb
    by (vm_compute; reflexivity).
  unfold config.ListMCPServers, config.readClaudeJSON, config.readPluginConfigs,
    config.readPluginConfigs_file, config.enabledFlags, config.readSettings.
  cbn [zeta_alpha zeta_only home holding absent alpha_cache claude_json
       settings_json plugins_cache ReadFile node_of mbind result_bind
       ent_IsDir ent_ReadDir ent_Name sub_IsDir sub_Name sub_mcp_json negb
       list_bind mapM fmap list_fmap app fst].
  rewrite Hz, Ha, Hb. cbn [mbind result_bind]. cbn [config.Projects].
  rewrite !go_range_singleton. cbn [mbind list_bind app config.proj_MCPServers].
  rewrite !go_range_singleton. cbn [mbind list_bind app].
  rewrite decide_False by done. cbn [config.MCPServers].
  rewrite map_size_empty, decide_False by lia.
  vm_compute. reflexivity.
Qed.

Lemma ListMCPServers_not_sorted_any_order `{MapRange} :
  ¬ StronglySorted config.by_Name
      (config.ListMCPServers the_config_reader zeta_alpha).1.
Proof.
  rewrite ListMCPServers_zeta_alpha_any_order. intros Hs.
  apply StronglySorted_inv in Hs as [_ Hz].
  apply Forall_cons in Hz as [Hz _]. vm_compute in Hz. done.
Qed.

(** * Further properties *)

(** ** The plugin list *)

Section plugin_list.
Context {S : Type} {port : output.PluginRepository S}.

#[local] Existing Instances by_ID_trans by_ID_total.

(** The entries appended for one [id, enabled] pair of the loop. *)
Local Abbreviation listed enabledOnly :=
  (λ '(id, enabled),
     if enabledOnly && negb enabled then [] else
     let '(name, publisher) := parsePluginID id in
     [{| plugin.ID := id; plugin.Name := name; plugin.Publisher := publisher;
         plugin.info_Enabled := enabled |}]).

Lemma Execute_Ok_inv `{MapRange} (enabledOnly : bool) (repo : S)
    (l : list plugin.PluginInfo) :
  plugin.Execute enabledOnly repo = Ok l →
  ∃ ms, output.ListAll repo = Ok ms
        ∧ l = merge_sort plugin.by_ID (go_range ms ≫= listed enabledOnly).
Proof.
  unfold plugin.Execute.
  destruct (output.ListAll repo) as [ms| |]; simpl; try done.
  intros [= <-]. eauto.
Qed.

Lemma listed_elem_of (enabledOnly : bool) (entries : list (string * bool))
    (p : plugin.PluginInfo) :
  p ∈ entries ≫= listed enabledOnly ↔
  ∃ enabled, (plugin.ID p, enabled) ∈ entries
    ∧ (enabledOnly = true → enabled = true)
    ∧ p = {| plugin.ID := plugin.ID p;
             plugin.Name := (parsePluginID (plugin.ID p)).1;
             plugin.Publisher := (parsePluginID (plugin.ID p)).2;
             plugin.info_Enabled := enabled |}.
Proof.
  rewrite list_elem_of_bind. split.
  - intros ([id enabled] & Hp & Hid).
    destruct (parsePluginID id) as [name publisher] eqn:Hparse.
    destruct (enabledOnly && negb enabled) eqn:Hf;
      [by apply elem_of_nil in Hp|].
    apply list_elem_of_singleton in Hp as ->. simpl. rewrite Hparse.
    exists enabled. repeat split; [done|].
    intros ->. by destruct enabled.
  - intros (enabled & Hid & Hen & Hp).
    exists (plugin.ID p, enabled). split; [|done].
    destruct (parsePluginID (plugin.ID p)) as [name publisher].
    assert (enabledOnly && negb enabled = false) as ->.
    { destruct enabledOnly; [|done]. by rewrite Hen. }
    rewrite Hp. simpl. by apply list_elem_of_singleton.
Qed.

Lemma listed_IDs_sublist (enabledOnly : bool) (entries : list (string * bool)) :
  plugin.ID <$> (entries ≫= listed enabledOnly) `sublist_of` entries.*1.
Proof.
  induction entries as [|[id enabled] entries IH]; [done|].
  cbn [mbind list_bind].
  destruct (enabledOnly && negb enabled).
  - simpl. by apply sublist_cons.
  - destruct (parsePluginID id) as [name publisher]. simpl.
    by apply sublist_skip.
Qed.

Lemma listed_length (enabledOnly : bool) (entries : list (string * bool)) :
  enabledOnly = false →
  length (entries ≫= listed enabledOnly) = length entries.
Proof.
  intros Hf. induction entries as [|[id enabled] entries IH]; [done|].
  cbn [mbind list_bind]. rewrite Hf at 1. cbn [andb].
  destruct (parsePluginID id). cbn [app length]. by rewrite <-IH.
Qed.

(** X2: the list returned by [Execute] is the same for every order in which
    the runtime iterates the plugin map. *)
Theorem Execute_order_independent (H1 H2 : MapRange) (enabledOnly : bool)
    (repo : S) :
  plugin.Execute (H := H1) enabledOnly repo
  = plugin.Execute (H := H2) enabledOnly repo.
Proof.
  unfold plugin.Execute.
  destruct (output.ListAll repo) as [ms| |]; simpl; try done.
  f_equal. apply (StronglySorted_unique_strong plugin.by_ID).
  - intros p q Hp Hq Hpq Hqp.
    rewrite merge_sort_Permutation in Hp, Hq.
    apply listed_elem_of in Hp as (ep & Hp & _ & Hp').
    apply listed_elem_of in Hq as (eq & Hq & _ & Hq').
    apply (elem_of_go_range (H := H1)) in Hp.
    apply (elem_of_go_range (H := H2)) in Hq.
    assert (plugin.ID p = plugin.ID q) as Hid.
    { unfold plugin.by_ID in *. by apply (anti_symm String.le). }
    rewrite Hp', Hq'. rewrite Hid in Hp |- *. by simplify_eq.
  - apply StronglySorted_merge_sort; apply _.
  - apply StronglySorted_merge_sort; apply _.
  - rewrite !merge_sort_Permutation.
    apply bind_Permutation.
    by rewrite (go_range_perm (MapRange := H1)), (go_range_perm (MapRange := H2)).
Qed.

(** X3: [Execute] lists no plugin twice, and without [enabledOnly] it lists
    as many entries as the repository has plugins. *)
Theorem Execute_each_once `{MapRange} (enabledOnly : bool) (repo : S)
    (l : list plugin.PluginInfo) (ms : gmap string bool) :
  plugin.Execute enabledOnly repo = Ok l →
  output.ListAll repo = Ok ms →
  NoDup (plugin.ID <$> l)
  ∧ (enabledOnly = false → length l = size ms).
Proof.
  intros (ms' & Hms & ->)%Execute_Ok_inv Hms'.
  rewrite Hms in Hms'. simplify_eq. split.
  - rewrite merge_sort_Permutation.
    eapply sublist_NoDup; [|apply listed_IDs_sublist].
    rewrite go_range_perm. apply NoDup_fst_map_to_list.
  - intros Hf. rewrite merge_sort_Permutation, listed_length by done.
    by rewrite go_range_perm, length_map_to_list.
Qed.

End plugin_list.

Lemma Execute_each_once_witness :
  let repo := {| plugin.plugins :=
                   {["context7@claude-plugins-official" := true;
                     "serena@claude-plugins-official" := false;
                     "greptile@claude-plugins-official" := true]};
                 plugin.err := None |} in
  ∃ l, plugin.Execute (port := plugin.mockRepo_port (H := key_order))
         (H := key_order) false repo = Ok l
       ∧ NoDup (plugin.ID <$> l) ∧ length l = 3.
Proof.
  intros repo.
  destruct (plugin.Execute (port := plugin.mockRepo_port (H := key_order))
              (H := key_order) false repo) as [l| |] eqn:He;
    [|by vm_compute in He..].
  exists l. split; [done|].
  destruct (@Execute_each_once _ (plugin.mockRepo_port (H := key_order))
              key_order false repo l _ He eq_refl) as [Hn Hl].
  split; [done|]. rewrite Hl by done. vm_compute. reflexivity.
Defined.

(** ** More on the toggle use case *)

Section toggle_more.
Context `{MapRange} (repo : repository.PluginRepository).

Local Abbreviation port := (repository.PluginRepository_port repo).
Local Abbreviation rd := (repository.reader repo).

(** X4: [Disable] on a plugin with no entry reports "already disabled" and
    leaves the store as it is: unlike [Enable], it creates no entry. *)
Theorem Disable_unknown_noop (id : string) (σ : fs) (m : gmap string bool) :
  claudeconfig.ListAllPlugins rd σ = Ok m →
  m !! id = None →
  ∃ res, plugin.Disable (port := port) id σ = (σ, Ok res)
         ∧ plugin.Enabled res = false ∧ plugin.WasAlready res = true.
Proof.
  intros Hm Hid. apply Disable_already. simpl.
  unfold claudeconfig.ListAllPlugins, claudeconfig.IsPluginEnabled in *.
  destruct (claudeconfig.ReadSettings rd σ) as [s| |]; simpl in *; try done.
  simplify_eq. by rewrite Hid.
Qed.


Lemma toggled_frame (b : bool) (id : string) (σ σ' : fs) (r : result ()) :
  claudeconfig.toggled rd b id σ = (σ', r) →
  claude_json σ' = claude_json σ ∧ plugins_cache σ' = plugins_cache σ
  ∧ (r ≠ Ok () → σ' = σ).
Proof.
  intros Ht.
  destruct (toggled_cases rd b id σ)
    as [(e & _ & E) | [(_ & E) | [(s & _ & _ & E) | (s & σ1 & _ & _ & E & Hc & Hp & _)]]];
    rewrite E in Ht; simplify_eq; done.
Qed.

(** X6: [Enable] and [Disable] touch nothing but [settings.json], and when
    they do not succeed they leave the whole store as it was. *)
Theorem toggle_touches_settings_only (id : string) (σ σ' : fs)
    (r : result plugin.ToggleResult) :
  plugin.Enable (port := port) id σ = (σ', r)
  ∨ plugin.Disable (port := port) id σ = (σ', r) →
  claude_json σ' = claude_json σ ∧ plugins_cache σ' = plugins_cache σ
  ∧ ((∀ res, r ≠ Ok res) → σ' = σ).
Proof.
  intros [He|Hd].
  - unfold plugin.Enable in He.
    destruct (output.IsEnabled (PluginRepository := port) id σ) as [[|]| |];
      simpl in He; simplify_eq; try done.
    destruct (claudeconfig.EnablePlugin rd id σ) as [σ1 r1] eqn:Ht.
    destruct (toggled_frame true id σ σ1 r1 Ht) as (Hc & Hp & Hs).
    destruct r1 as [[]| |]; simpl in He; simplify_eq;
      (split; [done|split; [done|]]); intros Hr;
      first [by apply Hs | by exfalso; eapply Hr].
  - unfold plugin.Disable in Hd.
    destruct (output.IsEnabled (PluginRepository := port) id σ) as [[|]| |];
      simpl in Hd; simplify_eq; try done.
    destruct (claudeconfig.DisablePlugin rd id σ) as [σ1 r1] eqn:Ht.
    destruct (toggled_frame false id σ σ1 r1 Ht) as (Hc & Hp & Hs).
    destruct r1 as [[]| |]; simpl in Hd; simplify_eq;
      (split; [done|split; [done|]]); intros Hr;
      first [by apply Hs | by exfalso; eapply Hr].
Qed.

End toggle_more.

Lemma Disable_unknown_noop_witness :
  let σ := home absent (holding (flags {["old@pub" := true]})) in
  ∃ res, plugin.Disable
           (port := repository.PluginRepository_port (H := key_order) the_repo)
           "new@pub" σ = (σ, Ok res)
         ∧ plugin.Enabled res = false ∧ plugin.WasAlready res = true.
Proof.
  intros σ.
  apply (@Disable_unknown_noop key_order the_repo "new@pub" σ
           {["old@pub" := true]}); vm_compute; reflexivity.
Defined.


Lemma toggle_touches_settings_only_witness :
  let σ := home (holding zeta_store) (File (Data (Doc (JObj (flags ∅)))) false) in
  ∃ σ' r, plugin.Enable
            (port := repository.PluginRepository_port (H := key_order) the_repo)
            "new@pub" σ = (σ', r)
          ∧ claude_json σ' = holding zeta_store ∧ σ' = σ.
Proof.
  intros σ.
  destruct (plugin.Enable
              (port := repository.PluginRepository_port (H := key_order) the_repo)
              "new@pub" σ) as [σ' r] eqn:He.
  exists σ', r. split; [done|].
  destruct (@toggle_touches_settings_only key_order the_repo "new@pub" σ σ' r
              (or_introl He)) as (Hc & _ & Hs).
  split; [done|]. apply Hs. intros res Hr. rewrite Hr in He.
  vm_compute in He. discriminate He.
Defined.

(** ** More on the settings reader *)

Section settings_more.
Context `{MapRange} (r : claudeconfig.Reader).


Lemma enabled_ids_elem_of (entries : list (string * bool)) (id : string) :
  id ∈ entries ≫= (λ '(id, isEnabled), if isEnabled : bool then [id] else [])
  ↔ (id, true) ∈ entries.
Proof.
  rewrite list_elem_of_bind. split.
  - intros ([id' [|]] & Hid & Hin); [|by apply elem_of_nil in Hid].
    by apply list_elem_of_singleton in Hid as ->.
  - intros Hin. exists (id, true). split; [|done].
    by apply list_elem_of_singleton.
Qed.

Lemma enabled_ids_sublist (entries : list (string * bool)) :
  entries ≫= (λ '(id, isEnabled), if isEnabled : bool then [id] else [])
  `sublist_of` entries.*1.
Proof.
  induction entries as [|[id [|]] entries IH]; [done| |]; cbn [mbind list_bind].
  - simpl. by apply sublist_skip.
  - simpl. by apply sublist_cons.
Qed.

(** X8: [ListEnabledPlugins] returns, each once, exactly the ids for which
    [IsPluginEnabled] answers true. *)
Theorem ListEnabledPlugins_spec (σ : fs) (l : list string) :
  claudeconfig.ListEnabledPlugins r σ = Ok l →
  NoDup l
  ∧ ∀ id, id ∈ l ↔ claudeconfig.IsPluginEnabled r id σ = Ok true.
Proof.
  unfold claudeconfig.ListEnabledPlugins, claudeconfig.IsPluginEnabled.
  destruct (claudeconfig.ReadSettings r σ) as [s| |]; simpl; try done.
  intros [= <-]. split.
  - eapply sublist_NoDup; [|apply enabled_ids_sublist].
    rewrite go_range_perm. apply NoDup_fst_map_to_list.
  - intros id. rewrite enabled_ids_elem_of, elem_of_go_range.
    destruct (claudeconfig.EnabledPlugins s !! id) as [[|]|]; naive_solver.
Qed.

Lemma go_range_empty {V} : go_range (∅ : gmap string V) = [].
Proof. apply Permutation_nil_r. by rewrite go_range_perm, map_to_list_empty. Qed.

(** X9: with no [settings.json], the settings reader answers as for an empty
    document — no plugins, none enabled — while the writer's [ListPlugins]
    and the aggregator's [readSettings] fail with the read error. *)
Theorem missing_settings_reads (σ : fs) (id : string) (rd : config.Reader) :
  node_of (settings_json σ) = Missing →
  claudeconfig.ListAllPlugins r σ = Ok ∅
  ∧ claudeconfig.ListEnabledPlugins r σ = Ok []
  ∧ claudeconfig.IsPluginEnabled r id σ = Ok false
  ∧ config.ListPlugins σ = Err (EWrap "failed to read settings" ENotExist)
  ∧ config.readSettings rd σ = Err ENotExist.
Proof.
  intros Hn.
  unfold claudeconfig.ListAllPlugins, claudeconfig.ListEnabledPlugins,
    claudeconfig.IsPluginEnabled, config.ListPlugins, config.readSettings.
  rewrite (ReadSettings_Missing r σ Hn). unfold ReadFile. rewrite Hn. simpl.
  by rewrite go_range_empty, lookup_empty.
Qed.

End settings_more.


Lemma ListEnabledPlugins_spec_witness :
  let σ := home absent (holding (flags {["a@pub" := false; "b@pub" := true]})) in
  claudeconfig.ListEnabledPlugins (H := key_order) the_reader σ = Ok ["b@pub"]
  ∧ NoDup ["b@pub"]
  ∧ claudeconfig.IsPluginEnabled the_reader "b@pub" σ = Ok true.
Proof.
  intros σ.
  assert (claudeconfig.ListEnabledPlugins (H := key_order) the_reader σ
          = Ok ["b@pub"]) as Hl by (vm_compute; reflexivity).
  destruct (@ListEnabledPlugins_spec key_order the_reader σ _ Hl) as [Hn Hi].
  split; [done|]. split; [exact Hn|]. apply Hi, list_elem_of_here.
Defined.

Lemma missing_settings_reads_witness :
  claudeconfig.ListAllPlugins the_reader (home absent absent) = Ok ∅
  ∧ claudeconfig.ListEnabledPlugins (H := key_order) the_reader
      (home absent absent) = Ok []
  ∧ claudeconfig.IsPluginEnabled the_reader "a@pub" (home absent absent)
    = Ok false
  ∧ config.ListPlugins (home absent absent)
    = Err (EWrap "failed to read settings" ENotExist)
  ∧ config.readSettings the_config_reader (home absent absent) = Err ENotExist.
Proof.
  by apply (@missing_settings_reads key_order the_reader (home absent absent)
              "a@pub" the_config_reader).
Defined.

(** ** Reading back a freshly written settings file *)

Lemma mapM_dec_string (l : list string) : mapM dec_string (JStr <$> l) = Some l.
Proof. by apply mapM_fmap_Some. Qed.

Lemma dec_strings_enc (l : list string) : dec_strings (enc_strings l) = Some l.
Proof. apply mapM_dec_string. Qed.

Lemma dec_map_Some (o : gmap string json) : dec_map Some (JObj o) = Some o.
Proof.
  unfold dec_map. rewrite decide_True.
  - f_equal. apply map_eq. intros k. rewrite lookup_omap. by destruct (o !! k).
  - intros k v _. eauto.
Qed.

Lemma length_0_nil {A} (l : list A) : ¬ 0 < length l → l = [].
Proof. destruct l; simpl; [done | lia]. Qed.

Lemma size_0_empty {V} (m : gmap string V) : ¬ 0 < size m → m = ∅.
Proof. intros Hs. apply map_size_empty_iff. lia. Qed.

Ltac lookups :=
  repeat first
    [ rewrite lookup_insert_eq
    | rewrite lookup_insert_ne by done
    | rewrite lookup_empty ].

Ltac empties :=
  repeat match goal with
    | H : ¬ 0 < length _ |- _ => apply length_0_nil in H
    | H : ¬ 0 < size _ |- _ => apply size_0_empty in H
    | H : ¬ _ ≠ _ |- _ => apply dec_stable in H
    end; simplify_eq.

Lemma dec_Permissions_enc (p : claudeconfig.Permissions) :
  claudeconfig.dec_Permissions (claudeconfig.enc_Permissions p) = Some (Some p).
Proof.
  destruct p as [a d m].
  unfold claudeconfig.enc_Permissions, claudeconfig.dec_Permissions, dec_field.
  cbn [claudeconfig.Allow claudeconfig.Deny claudeconfig.DefaultMode].
  repeat case_decide; lookups; rewrite ?dec_strings_enc; empties; done.
Qed.

Lemma dec_Settings_enc (s : claudeconfig.Settings) :
  claudeconfig.dec_Settings (claudeconfig.enc_Settings s) = Some s.
Proof.
  destruct s as [sc p h e].
  unfold claudeconfig.enc_Settings, claudeconfig.dec_Settings, dec_field.
  cbn [claudeconfig.Schema claudeconfig.Permissions_ claudeconfig.Hooks
       claudeconfig.EnabledPlugins].
  destruct p as [p|]; repeat case_decide; lookups;
    rewrite ?dec_Permissions_enc, ?dec_map_Some, ?dec_map_enc_bools;
    empties; done.
Qed.

(** X10: [WriteSettings] on a missing, creatable [settings.json] writes a
    document from which [ReadSettings] returns the settings written. *)
Theorem WriteSettings_fresh_ReadSettings (r : claudeconfig.Reader)
    (s : claudeconfig.Settings) (σ : fs) :
  node_of (settings_json σ) = Missing →
  writable (settings_json σ) = true →
  ∃ σ', claudeconfig.WriteSettings r s σ = (σ', Ok ())
        ∧ claudeconfig.ReadSettings r σ' = Ok s.
Proof.
  intros Hn Hw. eexists. split.
  - unfold claudeconfig.WriteSettings, ReadFile, WriteFile. by rewrite Hn, Hw.
  - eapply ReadSettings_Doc; [reflexivity|]. apply dec_Settings_enc.
Qed.

Lemma WriteSettings_fresh_ReadSettings_witness :
  let s := {| claudeconfig.Schema := "https://json.schemastore.org/x.json";
              claudeconfig.Permissions_ :=
                Some {| claudeconfig.Allow := ["Bash"]; claudeconfig.Deny := [];
                        claudeconfig.DefaultMode := "" |};
              claudeconfig.Hooks := ∅;
              claudeconfig.EnabledPlugins := {["a@pub" := true]} |} in
  ∃ σ', claudeconfig.WriteSettings the_reader s (home absent absent) = (σ', Ok ())
        ∧ claudeconfig.ReadSettings the_reader σ' = Ok s.
Proof.
  intros s.
  by apply (WriteSettings_fresh_ReadSettings the_reader s (home absent absent)).
Defined.


(** ** Flags that are not booleans *)

Lemma dec_map_bool_None (ep : gmap string json) (id : string) (v : json) :
  ep !! id = Some v → dec_bool v = None → dec_map dec_bool (JObj ep) = None.
Proof.
  intros Hid Hv. unfold dec_map. rewrite decide_False; [done|].
  intros Hall. specialize (Hall id v Hid). simpl in Hall.
  rewrite Hv in Hall. by destruct Hall.
Qed.

(** X11: when a flag under ["enabledPlugins"] is neither a boolean nor
    [null], the settings reader and the aggregator's [readSettings] fail to
    parse the file, while the writer's [ListPlugins] succeeds and leaves the
    flag out, so [GetPluginStatus] reports the plugin as not existing. *)
Theorem flag_of_wrong_kind (r : claudeconfig.Reader) (rd : config.Reader)
    (σ : fs) (doc ep : gmap string json) (id : string) (v : json) :
  node_of (settings_json σ) = Data (Doc (JObj doc)) →
  doc !! "enabledPlugins" = Some (JObj ep) →
  ep !! id = Some v →
  dec_bool v = None →
  claudeconfig.ReadSettings r σ = Err (EWrap "parse settings" EUnmarshal)
  ∧ config.readSettings rd σ = Err EUnmarshal
  ∧ config.ListPlugins σ = Ok (omap config.as_bool ep)
  ∧ config.GetPluginStatus id σ = Ok (false, false).
Proof.
  intros Hn Hep Hid Hv.
  assert (dec_map dec_bool (JObj ep) = None) as Hdec
    by by eapply dec_map_bool_None.
  assert (config.as_bool v = None) as Hb by by destruct v.
  split; [|split; [|split]].
  - apply (toggled_undecodable r true id σ _ Hn).
    unfold claudeconfig.dec_Settings, dec_field. rewrite Hep, Hdec.
    destruct (match doc !! "$schema" with Some v => _ | None => _ end); [|done].
    destruct (match doc !! "permissions" with Some v => _ | None => _ end); [|done].
    by destruct (match doc !! "hooks" with Some v => _ | None => _ end).
  - unfold config.readSettings, ReadFile. rewrite Hn. simpl.
    unfold dec_field. by rewrite Hep, Hdec.
  - unfold config.ListPlugins, ReadFile. rewrite Hn. simpl.
    unfold config.sub_map. simpl. by rewrite Hep.
  - unfold config.GetPluginStatus, config.ListPlugins, ReadFile. rewrite Hn.
    simpl. unfold config.sub_map. simpl. rewrite Hep. simpl.
    rewrite lookup_omap, Hid. simpl. by rewrite Hb.
Qed.

Lemma flag_of_wrong_kind_witness :
  let ep : gmap string json := {["a@pub" := JStr "yes"; "b@pub" := JBool true]} in
  let σ := home absent (holding {["enabledPlugins" := JObj ep]}) in
  claudeconfig.ReadSettings the_reader σ = Err (EWrap "parse settings" EUnmarshal)
  ∧ config.readSettings the_config_reader σ = Err EUnmarshal
  ∧ config.ListPlugins σ = Ok (omap config.as_bool ep)
  ∧ config.GetPluginStatus "a@pub" σ = Ok (false, false).
Proof.
  intros ep σ.
  apply (flag_of_wrong_kind the_reader the_config_reader σ
           {["enabledPlugins" := JObj ep]} ep "a@pub" (JStr "yes"));
    try reflexivity; vm_compute; reflexivity.
Defined.


(** ** The writer's view of the settings *)

Lemma ListPlugins_Doc (σ : fs) (o : gmap string json) :
  node_of (settings_json σ) = Data (Doc (JObj o)) →
  config.ListPlugins σ
  = Ok (omap config.as_bool
          (default ∅ (config.sub_map "enabledPlugins" (Some o)))).
Proof.
  intros Hn. unfold config.ListPlugins, ReadFile. rewrite Hn. simpl.
  destruct (config.sub_map "enabledPlugins" (Some o)); simpl; [done|].
  by rewrite omap_empty.
Qed.

Lemma SetPluginEnabled_Ok_inv (id : string) (b : bool) (σ σ' : fs) :
  config.SetPluginEnabled id b σ = (σ', Ok ()) →
  ∃ o, node_of (settings_json σ) = Data (Doc (JObj o))
    ∧ σ' = set_settings_json
             (File (Data (Doc (JObj (<["enabledPlugins" :=
                JObj (<[id := JBool b]>
                  (default ∅ (config.sub_map "enabledPlugins" (Some o))))]> o))))
                true) σ.
Proof.
  unfold config.SetPluginEnabled, ReadFile, WriteFile.
  destruct (node_of (settings_json σ)) as [| |[|v]]; simpl; try done.
  destruct v; simpl; try done.
  destruct (writable (settings_json σ)); simpl; [|done].
  intros [= <-]. eauto.
Qed.

(** The plugin map and the status queries after a successful
    [SetPluginEnabled]. *)
Lemma SetPluginEnabled_then_status (id : string) (b : bool) (σ σ' : fs) :
  config.SetPluginEnabled id b σ = (σ', Ok ()) →
  (∃ m, config.ListPlugins σ = Ok m
        ∧ config.ListPlugins σ' = Ok (<[id := b]> m))
  ∧ config.GetPluginStatus id σ' = Ok (b, true)
  ∧ ∀ id', id' ≠ id →
      config.GetPluginStatus id' σ' = config.GetPluginStatus id' σ.
Proof.
  intros (o & Hn & ->)%SetPluginEnabled_Ok_inv.
  set (ep := default ∅ (config.sub_map "enabledPlugins" (Some o))).
  assert (config.ListPlugins σ = Ok (omap config.as_bool ep)) as Hl
    by by apply ListPlugins_Doc.
  assert (config.ListPlugins
            (set_settings_json
               (File (Data (Doc (JObj (<["enabledPlugins" :=
                  JObj (<[id := JBool b]> ep)]> o)))) true) σ)
          = Ok (<[id := b]> (omap config.as_bool ep))) as Hl'.
  { erewrite ListPlugins_Doc by reflexivity.
    unfold config.sub_map. simpl. rewrite lookup_insert_eq. simpl.
    by rewrite (omap_insert_Some _ _ _ _ b). }
  split; [eauto|]. unfold config.GetPluginStatus. rewrite Hl, Hl'. simpl.
  split.
  - by rewrite lookup_insert_eq.
  - intros id' Hne. by rewrite lookup_insert_ne.
Qed.

(** X12: after a successful [SetPluginEnabled(id, b)], [GetPluginStatus]
    reports [id] as existing with status [b], and the status of every other
    plugin is what it was. *)
Theorem SetPluginEnabled_GetPluginStatus (id : string) (b : bool) (σ σ' : fs) :
  config.SetPluginEnabled id b σ = (σ', Ok ()) →
  (∃ m, config.ListPlugins σ = Ok m
        ∧ config.ListPlugins σ' = Ok (<[id := b]> m))
  ∧ config.GetPluginStatus id σ' = Ok (b, true)
  ∧ ∀ id', id' ≠ id →
      config.GetPluginStatus id' σ' = config.GetPluginStatus id' σ.
Proof. apply SetPluginEnabled_then_status. Qed.

Lemma SetPluginEnabled_GetPluginStatus_witness :
  let σ := home absent (holding {["$schema" := JStr "test";
             "enabledPlugins" := JObj {["test@pub" := JBool false]}]}) in
  ∃ σ', config.SetPluginEnabled "test@pub" true σ = (σ', Ok ())
        ∧ config.GetPluginStatus "test@pub" σ' = Ok (true, true)
        ∧ config.GetPluginStatus "other@pub" σ'
          = config.GetPluginStatus "other@pub" σ.
Proof.
  intros σ.
  destruct (config.SetPluginEnabled "test@pub" true σ) as [σ' r] eqn:Hs.
  assert (r = Ok ()) as -> by (by vm_compute in Hs; simplify_eq).
  exists σ'. split; [done|].
  destruct (SetPluginEnabled_GetPluginStatus "test@pub" true σ σ' Hs)
    as (_ & Hg & Ho).
  split; [done|]. by apply Ho.
Defined.


(** ** More on the Global Server Store *)

Lemma AddMCPServer_cases (name : string) (entry : config.MCPServerEntry)
    (σ σ' : fs) (r : result ()) :
  config.AddMCPServer name entry σ = (σ', r) →
  (σ' = σ ∧ r ≠ Ok ())
  ∨ (r = Ok ()
     ∧ ∃ o, node_of (claude_json σ) = Data (Doc (JObj o))
         ∧ writable (claude_json σ) = true
         ∧ default ∅ (config.sub_map "mcpServers" (Some o)) !! name = None
         ∧ σ' = set_claude_json
                  (File (Data (Doc (JObj (<["mcpServers" :=
                     JObj (<[name := JObj (config.serverConfig entry)]>
                       (default ∅ (config.sub_map "mcpServers" (Some o))))]> o))))
                     true) σ).
Proof.
  unfold config.AddMCPServer, ReadFile, WriteFile.
  destruct (node_of (claude_json σ)) as [| |[|v]] eqn:Hn; simpl;
    try (intros [= <- <-]; by left).
  destruct (dec_generic v) as [[o|]|] eqn:Hv; simpl.
  - destruct v; simpl in Hv; simplify_eq.
    case_decide as Hname; [intros [= <- <-]; by left|].
    simpl. destruct (writable (claude_json σ)) eqn:Hw; simpl;
      intros [= <- <-]; [|left; split; [by destruct σ|done]].
    right. split; [done|]. exists o. split; [done|]. split; [done|].
    split; [|done].
    by apply eq_None_not_Some.
  - case_decide; simpl; intros [= <- <-]; by left.
  - intros [= <- <-]. by left.
Qed.

Lemma RemoveMCPServer_cases (name : string) (σ σ' : fs) (r : result ()) :
  config.RemoveMCPServer name σ = (σ', r) →
  (σ' = σ ∧ r ≠ Ok ())
  ∨ (r = Ok ()
     ∧ ∃ o ms, node_of (claude_json σ) = Data (Doc (JObj o))
         ∧ writable (claude_json σ) = true
         ∧ config.sub_map "mcpServers" (Some o) = Some ms
         ∧ is_Some (ms !! name)
         ∧ σ' = set_claude_json
                  (File (Data (Doc (JObj (<["mcpServers" :=
                     JObj (delete name ms)]> o)))) true) σ).
Proof.
  unfold config.RemoveMCPServer, ReadFile, WriteFile.
  destruct (node_of (claude_json σ)) as [| |[|v]] eqn:Hn; simpl;
    try (intros [= <- <-]; by left).
  destruct v as [| | | | |o]; simpl; try (intros [= <- <-]; by left).
  destruct (config.sub_map "mcpServers" (Some o)) as [ms|] eqn:Hms;
    [|intros [= <- <-]; by left].
  case_decide as Hname; [|intros [= <- <-]; by left].
  simpl. destruct (writable (claude_json σ)) eqn:Hw; simpl;
    intros [= <- <-]; [|left; split; [by destruct σ|done]].
  right. split; [done|]. by exists o, ms.
Qed.

Lemma ListMCPServersGlobal_Doc (σ : fs) (o : gmap string json) :
  node_of (claude_json σ) = Data (Doc (JObj o)) →
  config.ListMCPServersGlobal σ
  = Ok (omap (λ v, config.entryOf <$> config.as_object v)
          (default ∅ (config.sub_map "mcpServers" (Some o)))).
Proof.
  intros Hn. unfold config.ListMCPServersGlobal, ReadFile. rewrite Hn. simpl.
  destruct (config.sub_map "mcpServers" (Some o)); simpl; [done|].
  by rewrite omap_empty.
Qed.

Lemma omap_as_string (l : list string) : omap config.as_string (JStr <$> l) = l.
Proof. induction l as [|s l IH]; csimpl; [done | by rewrite IH]. Qed.

(** What is read back from the object written for an entry: the entry
    without its headers. *)
Lemma entryOf_serverConfig (entry : config.MCPServerEntry) :
  config.entryOf (config.serverConfig entry)
  = {| config.entry_Type := config.entry_Type entry;
       config.entry_Command := config.entry_Command entry;
       config.entry_Args := config.entry_Args entry;
       config.entry_URL := config.entry_URL entry;
       config.entry_Headers := ∅;
       config.entry_Enabled := config.entry_Enabled entry |}.
Proof.
  destruct entry as [t c a u h e].
  unfold config.entryOf, config.serverConfig.
  cbn [config.entry_Type config.entry_Command config.entry_Args
       config.entry_URL config.entry_Headers config.entry_Enabled].
  destruct e; repeat case_decide; lookups; cbn [mbind option_bind default];
    unfold enc_strings; rewrite ?omap_as_string; empties; done.
Qed.

Lemma sub_map_Some (key : string) (o ms : gmap string json) :
  config.sub_map key (Some o) = Some ms ↔ o !! key = Some (JObj ms).
Proof.
  unfold config.sub_map, nil_lookup. simpl.
  destruct (o !! key) as [[]|]; split; intros; simplify_eq; done.
Qed.

Lemma sub_map_insert (key : string) (o ms : gmap string json) :
  config.sub_map key (Some (<[key := JObj ms]> o)) = Some ms.
Proof. apply sub_map_Some, lookup_insert_eq. Qed.

(** The managed servers before and after a successful [AddMCPServer]. *)
Lemma AddMCPServer_then_listing (name : string)
    (entry : config.MCPServerEntry) (σ σ' : fs) :
  config.AddMCPServer name entry σ = (σ', Ok ()) →
  ∃ m, config.ListMCPServersGlobal σ = Ok m
    ∧ m !! name = None
    ∧ config.ListMCPServersGlobal σ'
      = Ok (<[name :=
               {| config.entry_Type := config.entry_Type entry;
                  config.entry_Command := config.entry_Command entry;
                  config.entry_Args := config.entry_Args entry;
                  config.entry_URL := config.entry_URL entry;
                  config.entry_Headers := ∅;
                  config.entry_Enabled := config.entry_Enabled entry |}]> m)
    ∧ config.MCPServerExists name σ' = Ok true.
Proof.
  intros [[_ Hr] | (_ & o & Hn & _ & Hname & ->)]%AddMCPServer_cases; [done|].
  set (ms := default ∅ (config.sub_map "mcpServers" (Some o))) in *.
  assert (config.ListMCPServersGlobal
            (set_claude_json
               (File (Data (Doc (JObj (<["mcpServers" :=
                  JObj (<[name := JObj (config.serverConfig entry)]> ms)]> o))))
                  true) σ)
          = Ok (<[name := config.entryOf (config.serverConfig entry)]>
                  (omap (λ v, config.entryOf <$> config.as_object v) ms)))
    as Hl'.
  { erewrite ListMCPServersGlobal_Doc by reflexivity.
    rewrite sub_map_insert. simpl.
    by erewrite omap_insert_Some by reflexivity. }
  exists (omap (λ v, config.entryOf <$> config.as_object v) ms).
  split; [by apply ListMCPServersGlobal_Doc|].
  split; [by rewrite lookup_omap, Hname|].
  rewrite <-entryOf_serverConfig. split; [done|].
  unfold config.MCPServerExists. rewrite Hl'. simpl.
  by rewrite lookup_insert_eq.
Qed.

(** X13: after a successful [AddMCPServer(name, entry)], the name was not
    listed before, [ListMCPServersGlobal] lists it with the entry's type,
    command, args, url and enabled flag but without its headers, the other
    entries are as before, and [MCPServerExists] answers true. *)
Theorem AddMCPServer_ListMCPServersGlobal (name : string)
    (entry : config.MCPServerEntry) (σ σ' : fs) :
  config.AddMCPServer name entry σ = (σ', Ok ()) →
  ∃ m, config.ListMCPServersGlobal σ = Ok m
    ∧ m !! name = None
    ∧ config.ListMCPServersGlobal σ'
      = Ok (<[name :=
               {| config.entry_Type := config.entry_Type entry;
                  config.entry_Command := config.entry_Command entry;
                  config.entry_Args := config.entry_Args entry;
                  config.entry_URL := config.entry_URL entry;
                  config.entry_Headers := ∅;
                  config.entry_Enabled := config.entry_Enabled entry |}]> m)
    ∧ config.MCPServerExists name σ' = Ok true.
Proof. apply AddMCPServer_then_listing. Qed.


Lemma AddMCPServer_ListMCPServersGlobal_witness :
  let entry :=
    {| config.entry_Type := "http"; config.entry_Command := "";
       config.entry_Args := []; config.entry_URL := "https://x.example/mcp";
       config.entry_Headers := {["Authorization" := "Bearer t"]};
       config.entry_Enabled := false |} in
  let σ := home (holding (servers ∅)) absent in
  ∃ σ', config.AddMCPServer "x" entry σ = (σ', Ok ())
    ∧ ∃ m, config.ListMCPServersGlobal σ = Ok m
        ∧ config.ListMCPServersGlobal σ'
          = Ok (<["x" := {| config.entry_Type := "http";
                            config.entry_Command := ""; config.entry_Args := [];
                            config.entry_URL := "https://x.example/mcp";
                            config.entry_Headers := ∅;
                            config.entry_Enabled := false |}]> m).
Proof.
  intros entry σ.
  destruct (config.AddMCPServer "x" entry σ) as [σ' r] eqn:Ha.
  assert (r = Ok ()) as -> by (by vm_compute in Ha; simplify_eq).
  exists σ'. split; [done|].
  destruct (AddMCPServer_ListMCPServersGlobal "x" entry σ σ' Ha)
    as (m & Hm & _ & Hm' & _).
  by exists m.
Defined.





Section aggregator_frame.
Context `{MapRange} (r : config.Reader).

Lemma ListMCPServers_set_servers (σ : fs) (o : gmap string json) (x : json) :
  node_of (claude_json σ) = Data (Doc (JObj o)) →
  config.ListMCPServers r
    (set_claude_json
       (File (Data (Doc (JObj (<["mcpServers" := x]> o)))) true) σ)
  = config.ListMCPServers r σ.
Proof.
  intros Hn.
  unfold config.ListMCPServers, config.readClaudeJSON, config.readPluginConfigs,
    config.enabledFlags, config.readSettings, ReadFile.
  cbn [set_claude_json claude_json settings_json plugins_cache node_of].
  rewrite Hn. cbn [mbind result_bind].
  assert (Unmarshal config.dec_ClaudeConfig (Doc (JObj (<["mcpServers" := x]> o)))
          = Unmarshal config.dec_ClaudeConfig (Doc (JObj o))) as ->; [|done].
  unfold Unmarshal, config.dec_ClaudeConfig, dec_field.
  by rewrite lookup_insert_ne.
Qed.

(** X16: the aggregator reads the servers under ["projects"] only, so
    adding or removing a server of the managed ["mcpServers"] map never
    changes what [ListMCPServers] returns. *)
Theorem ListMCPServers_ignores_managed_servers (name : string)
    (entry : config.MCPServerEntry) (σ : fs) :
  config.ListMCPServers r (config.AddMCPServer name entry σ).1
  = config.ListMCPServers r σ
  ∧ config.ListMCPServers r (config.RemoveMCPServer name σ).1
    = config.ListMCPServers r σ.
Proof.
  split.
  - destruct (config.AddMCPServer name entry σ) as [σ1 r1] eqn:Ha. simpl.
    apply AddMCPServer_cases in Ha
      as [[-> _] | (_ & o & Hn & _ & _ & ->)]; [done|].
    by apply ListMCPServers_set_servers.
  - destruct (config.RemoveMCPServer name σ) as [σ1 r1] eqn:Hr. simpl.
    apply RemoveMCPServer_cases in Hr
      as [[-> _] | (_ & o & ms & Hn & _ & _ & _ & ->)]; [done|].
    by apply ListMCPServers_set_servers.
Qed.

End aggregator_frame.

Lemma MCPServerExists_true (name : string) (σ : fs) :
  config.MCPServerExists name σ = Ok true →
  ∃ ms, config.managed_servers σ = Ok (Some ms) ∧ is_Some (ms !! name).
Proof.
  unfold config.MCPServerExists, config.ListMCPServersGlobal,
    config.managed_servers, ReadFile.
  destruct (node_of (claude_json σ)) as [| |[|v]]; simpl; try done.
  destruct (dec_generic v) as [cfg|]; simpl; [|done].
  destruct (config.sub_map "mcpServers" cfg) as [ms|]; simpl.
  - intros [= Hb%bool_decide_eq_true]. exists ms. split; [done|].
    rewrite lookup_omap in Hb. destruct (ms !! name); [eauto|].
    by destruct Hb.
  - by rewrite lookup_empty.
Qed.

(** X17: when [MCPServerExists] answers true, [AddMCPServer] fails with
    "already exists".  The converse fails for a name whose value under
    ["mcpServers"] is not an object: [MCPServerExists] answers false, yet
    [AddMCPServer] fails with "already exists" and the [remove] command
    reports "server not found" without touching the store. *)
Theorem MCPServerExists_and_AddMCPServer (name : string)
    (entry : config.MCPServerEntry) (σ : fs) :
  (config.MCPServerExists name σ = Ok true →
   config.AddMCPServer name entry σ = (σ, Err (EAlreadyExists name)))
  ∧ (∀ ms v, config.managed_servers σ = Ok (Some ms) →
       ms !! name = Some v → config.as_object v = None →
       config.MCPServerExists name σ = Ok false
       ∧ config.AddMCPServer name entry σ = (σ, Err (EAlreadyExists name))
       ∧ command.runRemove name σ
         = (σ, command.Failed (command.Message "server not found"))).
Proof.
  split.
  - intros (ms & Hms & Hname)%MCPServerExists_true.
    by apply AddMCPServer_exists with ms.
  - intros ms v Hms Hname Hv.
    assert (config.MCPServerExists name σ = Ok false) as He.
    { apply managed_servers_Ok_inv in Hms as (v' & cfg & Hn & Hdec & Hsub).
      unfold config.MCPServerExists, config.ListMCPServersGlobal, ReadFile.
      rewrite Hn. simpl. rewrite Hdec. simpl. rewrite Hsub. simpl.
      rewrite lookup_omap, Hname. simpl. by rewrite Hv. }
    split; [done|]. split.
    + by apply AddMCPServer_exists with ms.
    + unfold command.runRemove. by rewrite He.
Qed.

Lemma MCPServerExists_and_AddMCPServer_witness :
  let σ := home (holding (servers {["x" := JStr "npx -y @pkg/mcp"]})) absent in
  config.MCPServerExists "x" σ = Ok false
  ∧ config.AddMCPServer "x" npx_entry σ = (σ, Err (EAlreadyExists "x"))
  ∧ command.runRemove "x" σ
    = (σ, command.Failed (command.Message "server not found"))
  ∧ (config.MCPServerExists "y" (home (holding (servers {["y" := JObj ∅]})) absent)
     = Ok true
     ∧ config.AddMCPServer "y" npx_entry
         (home (holding (servers {["y" := JObj ∅]})) absent)
       = (home (holding (servers {["y" := JObj ∅]})) absent,
          Err (EAlreadyExists "y"))).
Proof.
  intros σ.
  destruct (MCPServerExists_and_AddMCPServer "x" npx_entry σ) as [_ Hx].
  destruct (MCPServerExists_and_AddMCPServer "y" npx_entry
              (home (holding (servers {["y" := JObj ∅]})) absent)) as [Hy _].
  destruct (Hx {["x" := JStr "npx -y @pkg/mcp"]} (JStr "npx -y @pkg/mcp"))
    as (H1 & H2 & H3); [vm_compute; reflexivity | by rewrite lookup_singleton_eq
                        | reflexivity |].
  split; [done|]. split; [done|]. split; [done|].
  assert (config.MCPServerExists "y"
            (home (holding (servers {["y" := JObj ∅]})) absent) = Ok true) as Hey
    by (vm_compute; reflexivity).
  split; [done|]. by apply Hy.
Defined.


(** ** Plugin identifiers, both ways *)

Lemma substring_split (s : string) (i : nat) (c : ascii) :
  String.get i s = Some c →
  String.substring 0 i s
    +:+ String c (String.substring (S i) (String.length s - S i) s) = s.
Proof.
  revert i. induction s as [|a s IH]; intros [|i]; simpl; try done.
  - intros [= ->]. rewrite Nat.sub_0_r.
    change (String c (String.substring 0 (String.length s) s)
            = String c s). by rewrite substring_all.
  - intros Hg. change (String a (String.substring 0 i s
        +:+ String c (String.substring (S i) (String.length s - S i) s))
      = String a s). by rewrite IH.
Qed.

Lemma parsePluginID_from_cases (id : string) (n : nat) :
  (parsePluginID_from id n = (id, "")
   ∧ ∀ i, i < n → String.get i id ≠ Some "@"%char)
  ∨ ∃ i, i < n ∧ String.get i id = Some "@"%char
         ∧ parsePluginID_from id n
           = (String.substring 0 i id,
              String.substring (S i) (String.length id - S i) id).
Proof.
  induction n as [|n IH]; simpl.
  - left. split; [done|]. lia.
  - case_decide as Hg.
    + right. exists n. split; [lia|done].
    + destruct IH as [[Hr Hno] | (i & Hi & Hgi & Hr)].
      * left. split; [done|]. intros i Hi.
        destruct (decide (i = n)) as [->|]; [done|]. apply Hno. lia.
      * right. exists i. split; [lia|done].
Qed.

Lemma Index_Some_get (s : string) (c : ascii) (i : nat) :
  Index s c = Some i → String.get i s = Some c ∧ i < String.length s.
Proof.
  revert i. induction s as [|a s IH]; intros i; simpl; [done|].
  case_decide as Ha.
  - intros [= <-]. subst. split; [done|lia].
  - destruct (Index s c) as [j|]; simpl; [|done].
    intros [= <-]. destruct (IH j eq_refl). split; [done|lia].
Qed.

(** X1: parsing the string of a [PluginID] whose publisher has no ['@']
    gives back its name and publisher, and for an identifier that contains
    an ['@'] the string of the parsed parts is the identifier itself. *)
Theorem PluginID_String_parsePluginID (p : mcp.PluginID) (id : string) :
  (no_at (mcp.Publisher p) →
   parsePluginID (mcp.PluginID_String p) = (mcp.Name p, mcp.Publisher p))
  ∧ (Contains id "@" = true →
     mcp.PluginID_String
       {| mcp.Name := (parsePluginID id).1;
          mcp.Publisher := (parsePluginID id).2 |} = id).
Proof.
  split.
  - intros Hp. unfold parsePluginID, mcp.PluginID_String.
    rewrite length_boundary. by apply parsePluginID_from_last.
  - intros Hc. unfold Contains in Hc. apply bool_decide_eq_true in Hc as [i Hi].
    apply Index_Some_get in Hi as [Hg Hlt].
    unfold parsePluginID, mcp.PluginID_String.
    destruct (parsePluginID_from_cases id (String.length id))
      as [[_ Hno] | (j & Hj & Hgj & ->)].
    + by destruct (Hno i Hlt).
    + simpl. by apply substring_split.
Qed.

Lemma PluginID_String_parsePluginID_witness :
  parsePluginID
    (mcp.PluginID_String {| mcp.Name := "multi@at"; mcp.Publisher := "signs" |})
  = ("multi@at", "signs")
  ∧ mcp.PluginID_String
      {| mcp.Name := (parsePluginID "context7@claude-plugins-official").1;
         mcp.Publisher := (parsePluginID "context7@claude-plugins-official").2 |}
    = "context7@claude-plugins-official".
Proof.
  destruct (PluginID_String_parsePluginID
              {| mcp.Name := "multi@at"; mcp.Publisher := "signs" |}
              "context7@claude-plugins-official") as [H1 H2].
  split.
  - apply H1. simpl. repeat (apply no_at_cons; [done|]). apply no_at_nil.
  - by apply H2.
Defined.


(** ** The package named by the arguments of [npx] *)

Lemma no_at_inv (a : ascii) (s : string) :
  no_at (String a s) → a ≠ "@"%char ∧ no_at s.
Proof.
  intros Hs. split.
  - intros ->. by apply (Hs 0).
  - intros i. apply (Hs (S i)).
Qed.

Lemma Count_no_at (s : string) : no_at s → Count s "@" = 0.
Proof.
  induction s as [|a s IH]; [done|]. intros [Ha Hs]%no_at_inv. simpl.
  rewrite decide_False by done. by rewrite IH.
Qed.

Lemma Count_app (p t : string) (c : ascii) :
  Count (p +:+ t) c = Count p c + Count t c.
Proof.
  induction p as [|a p IH]; [done|].
  change (String a p +:+ t) with (String a (p +:+ t)). simpl.
  rewrite IH. lia.
Qed.

Lemma Count_boundary (p v : string) :
  no_at v → Count (p +:+ "@" +:+ v) "@" = S (Count p "@").
Proof.
  intros Hv. rewrite !Count_app, (Count_no_at v Hv). simpl. lia.
Qed.

Lemma Index_no_at (s : string) : no_at s → Index s "@" = None.
Proof.
  induction s as [|a s IH]; [done|]. intros [Ha Hs]%no_at_inv. simpl.
  rewrite decide_False by done. by rewrite IH.
Qed.

Lemma Index_boundary (p v : string) :
  no_at p → Index (p +:+ "@" +:+ v) "@" = Some (String.length p).
Proof.
  induction p as [|a p IH]; [done|]. intros [Ha Hp]%no_at_inv.
  change (String a p +:+ "@" +:+ v) with (String a (p +:+ "@" +:+ v)). simpl.
  rewrite decide_False by done. by rewrite IH.
Qed.

Lemma Contains_boundary (p v : string) : Contains (p +:+ "@" +:+ v) "@" = true.
Proof.
  unfold Contains. apply bool_decide_eq_true.
  induction p as [|a p IH]; [by eexists|].
  change (String a p +:+ "@" +:+ v) with (String a (p +:+ "@" +:+ v)). simpl.
  case_decide; [by eexists|]. destruct IH as [i ->]. by eexists.
Qed.

Lemma Contains_no_at (s : string) : no_at s → Contains s "@" = false.
Proof.
  intros Hs. unfold Contains. rewrite Index_no_at by done.
  apply bool_decide_eq_false. by intros [? ?].
Qed.

Lemma LastIndex_below_boundary (p t : string) (k : nat) :
  no_at t → k ≤ String.length t →
  LastIndex_below (p +:+ "@" +:+ t) "@" (String.length p + 1 + k)
  = Some (String.length p).
Proof.
  intros Ht. induction k as [|k IH]; intros Hk.
  - replace (String.length p + 1 + 0) with (S (String.length p)) by lia.
    cbn [LastIndex_below]. rewrite get_at_boundary. by rewrite decide_True.
  - replace (String.length p + 1 + S k) with (S (String.length p + S k)) by lia.
    cbn [LastIndex_below]. rewrite get_after_boundary.
    rewrite decide_False by apply Ht.
    replace (String.length p + S k) with (String.length p + 1 + k) by lia.
    apply IH. lia.
Qed.

Lemma LastIndex_boundary (p t : string) :
  no_at t → LastIndex (p +:+ "@" +:+ t) "@" = Some (String.length p).
Proof.
  intros Ht. unfold LastIndex. rewrite length_boundary.
  by apply LastIndex_below_boundary.
Qed.

Lemma slices_boundary (p t : string) :
  slice_to (p +:+ "@" +:+ t) (String.length p) = p
  ∧ slice_from (p +:+ "@" +:+ t) (S (String.length p)) = t.
Proof.
  unfold slice_to, slice_from. split; [apply substring_app_prefix|].
  rewrite substring_after_boundary, length_boundary.
  replace (String.length p + 1 + String.length t - S (String.length p))
    with (String.length t) by lia.
  apply substring_all.
Qed.

Lemma HasPrefix_app (p t : string) (c : ascii) :
  p ≠ "" → HasPrefix (p +:+ t) (String c "") = HasPrefix p (String c "").
Proof.
  destruct p as [|a p]; [done|]. intros _. unfold HasPrefix.
  change (String a p +:+ t) with (String a (p +:+ t)). cbn [String.prefix].
  destruct (ascii_dec c a); [|done]. by destruct (p +:+ t), p.
Qed.

Lemma HasPrefix_no_at (p : string) : no_at p → HasPrefix p "@" = false.
Proof.
  destruct p as [|a p]; [done|]. intros [Ha _]%no_at_inv.
  unfold HasPrefix. cbn [String.prefix].
  destruct (ascii_dec "@" a); [by subst|done].
Qed.

Lemma HasPrefix_head (c : ascii) (s : string) :
  HasPrefix (String c s) (String c "") = true.
Proof.
  unfold HasPrefix. cbn [String.prefix].
  destruct (ascii_dec c c); [by destruct s|done].
Qed.

Lemma extractPackageInfo_flags (flags rest : list string) :
  Forall (λ a, HasPrefix a "-" = true) flags →
  command.extractPackageInfo (flags ++ rest) = command.extractPackageInfo rest.
Proof.
  induction 1 as [|a flags Ha _ IH]; [done|]. simpl. by rewrite Ha.
Qed.

(** X20: [extractPackageInfo] skips leading flags and reads the first other
    argument: a plain or scoped package name gives the name and no version;
    the name followed by ['@'] and a version gives the name and the
    version; arguments that are all flags give two empty strings. *)
Theorem extractPackageInfo_spec (flags rest : list string) (p v : string) :
  Forall (λ a, HasPrefix a "-" = true) flags →
  HasPrefix p "-" = false →
  (no_at p ∨ ∃ q, p = "@" +:+ q ∧ no_at q) →
  no_at v →
  command.extractPackageInfo flags = ("", "")
  ∧ command.extractPackageInfo (flags ++ p :: rest) = (p, "")
  ∧ (p ≠ "" →
     command.extractPackageInfo (flags ++ (p +:+ "@" +:+ v) :: rest) = (p, v)).
Proof.
  intros Hflags Hp Hshape Hv. split; [|split].
  - rewrite <-(app_nil_r flags). by rewrite extractPackageInfo_flags.
  - rewrite extractPackageInfo_flags by done. simpl. rewrite Hp.
    destruct Hshape as [Hno | (q & -> & Hq)].
    + by rewrite Contains_no_at.
    + change ("@" +:+ q) with ("" +:+ "@" +:+ q).
      rewrite Contains_boundary, Count_boundary by done. cbn [Count].
      change ("" +:+ "@" +:+ q) with (String "@" q).
      by rewrite HasPrefix_head.
  - intros Hne. rewrite extractPackageInfo_flags by done. simpl.
    rewrite HasPrefix_app, Hp, Contains_boundary by done.
    destruct (slices_boundary p v) as [Hto Hfrom].
    destruct Hshape as [Hno | (q & -> & Hq)].
    + rewrite Count_boundary, Count_no_at by done.
      rewrite HasPrefix_app, HasPrefix_no_at, Index_boundary by done.
      by rewrite Hto, Hfrom.
    + rewrite Count_boundary by done.
      change ("@" +:+ q) with ("" +:+ "@" +:+ q) at 1.
      rewrite Count_boundary by done. simpl Count.
      rewrite LastIndex_boundary by done.
      by rewrite Hto, Hfrom.
Qed.

Lemma extractPackageInfo_spec_witness :
  command.extractPackageInfo ["-y"] = ("", "")
  ∧ command.extractPackageInfo ["-y"; "@upstash/context7-mcp"]
    = ("@upstash/context7-mcp", "")
  ∧ command.extractPackageInfo ["-y"; "@package/name" +:+ "@" +:+ "1.0.0"]
    = ("@package/name", "1.0.0").
Proof.
  destruct (extractPackageInfo_spec ["-y"] [] "@upstash/context7-mcp" "")
    as (H1 & H2 & _);
    [by repeat constructor | done
     | right; exists "upstash/context7-mcp"; split; [done|];
       repeat (apply no_at_cons; [done|]); apply no_at_nil
     | apply no_at_nil |].
  destruct (extractPackageInfo_spec ["-y"] [] "@package/name" "1.0.0")
    as (_ & _ & H3);
    [by repeat constructor | done
     | right; exists "package/name"; split; [done|];
       repeat (apply no_at_cons; [done|]); apply no_at_nil
     | repeat (apply no_at_cons; [done|]); apply no_at_nil |].
  split; [done|]. split; [done|]. by apply H3.
Defined.


(** ** The commands [disable] and [install] *)

Lemma SetPluginEnabled_cases (id : string) (b : bool) (σ σ' : fs)
    (r : result ()) :
  config.SetPluginEnabled id b σ = (σ', r) → r = Ok () ∨ σ' = σ.
Proof.
  unfold config.SetPluginEnabled, ReadFile, WriteFile.
  destruct (node_of (settings_json σ)) as [| |[|v]]; simpl;
    try (intros [= <- <-]; by right).
  destruct v; simpl; try (intros [= <- <-]; by right).
  destruct (writable (settings_json σ)); simpl; intros [= <- <-];
    [by left|right; by destruct σ].
Qed.

(** X18: the [disable] command succeeds only for a plugin that
    [GetPluginStatus] reports as existing — it never registers one — and
    after success the plugin exists and is disabled; it changes the status
    of no other plugin, and when it fails the store is as it was. *)
Theorem runDisable_spec (id : string) (σ σ' : fs) (out : command.outcome) :
  command.runDisable id σ = (σ', out) →
  (out = command.Done →
   (∃ e, config.GetPluginStatus id σ = Ok (e, true))
   ∧ config.GetPluginStatus id σ' = Ok (false, true))
  ∧ (∀ id', id' ≠ id →
       config.GetPluginStatus id' σ' = config.GetPluginStatus id' σ)
  ∧ (out ≠ command.Done → σ' = σ).
Proof.
  unfold command.runDisable.
  destruct (Contains id "@"); simpl; [|by intros [= <- <-]].
  destruct (config.GetPluginStatus id σ) as [[e x]| |] eqn:Hg;
    [|by intros [= <- <-]..].
  destruct x; simpl; [|by intros [= <- <-]].
  destruct e; simpl.
  - destruct (config.SetPluginEnabled id false σ) as [σ1 r] eqn:Hs.
    intros [= <- <-].
    destruct (SetPluginEnabled_cases _ _ _ _ _ Hs) as [-> | ->].
    + destruct (SetPluginEnabled_then_status id false σ σ1 Hs)
        as (_ & Hg' & Ho).
      split; [eauto|]. split; [done|]. by intros [].
    + split; [|done]. intros Hd. destruct r as [[]| |]; simpl in Hd; try done.
      by destruct (SetPluginEnabled_then_status id false σ σ Hs)
        as (_ & Hg' & _); eauto.
  - intros [= <- <-]. split; [eauto|]. done.
Qed.

Lemma runDisable_spec_witness :
  let σ := home absent (holding {["$schema" := JStr "test";
             "enabledPlugins" := JObj {["test@pub" := JBool true]}]}) in
  (∃ σ', command.runDisable "test@pub" σ = (σ', command.Done)
         ∧ config.GetPluginStatus "test@pub" σ' = Ok (false, true))
  ∧ command.runDisable "new@pub" σ
    = (σ, command.Failed (command.Message "plugin not found")).
Proof.
  intros σ. split.
  - destruct (command.runDisable "test@pub" σ) as [σ' out] eqn:Hr.
    assert (out = command.Done) as -> by (by vm_compute in Hr; simplify_eq).
    exists σ'. split; [done|].
    by apply (runDisable_spec "test@pub" σ σ' command.Done Hr).
  - destruct (command.runDisable "new@pub" σ) as [σ' out] eqn:Hr.
    assert (out = command.Failed (command.Message "plugin not found")) as ->
      by (by vm_compute in Hr; simplify_eq).
    f_equal.
    by apply (runDisable_spec "new@pub" σ σ' _ Hr).
Defined.

Lemma installEntry_Headers (f : command.installFlags) (name : string)
    (package : option string) (entry : config.MCPServerEntry) :
  command.installEntry f name package = inr entry →
  config.entry_Headers entry = ∅ ∧ config.entry_Enabled entry = false.
Proof.
  unfold command.installEntry.
  destruct f as [[|] u [|] c a], package; simpl;
    repeat case_decide; intros; by simplify_eq.
Qed.

(** X19: when the [install] command succeeds, the name was not listed by
    [ListMCPServersGlobal] before and is listed afterwards with exactly the
    entry built from the flags, the other entries being as before; when it
    does not succeed, the store is as it was. *)
Theorem runInstall_spec (f : command.installFlags) (name : string)
    (package : option string) (σ σ' : fs) (out : command.outcome) :
  command.runInstall f name package σ = (σ', out) →
  (out = command.Done →
   ∃ entry m, command.installEntry f name package = inr entry
     ∧ config.ListMCPServersGlobal σ = Ok m ∧ m !! name = None
     ∧ config.ListMCPServersGlobal σ' = Ok (<[name := entry]> m))
  ∧ (out ≠ command.Done → σ' = σ).
Proof.
  unfold command.runInstall.
  destruct (config.MCPServerExists name σ) as [[|]| |];
    [by intros [= <- <-]| |by intros [= <- <-]..].
  destruct (command.installEntry f name package) as [e|entry] eqn:He;
    [by intros [= <- <-]|].
  destruct (config.AddMCPServer name entry σ) as [σ1 r] eqn:Ha.
  intros [= <- <-]. split.
  - intros Hd. destruct r as [[]| |]; simpl in Hd; try done.
    destruct (AddMCPServer_then_listing name entry σ σ1 Ha)
      as (m & Hm & Hname & Hm' & _).
    exists entry, m. repeat split; try done. rewrite Hm'.
    destruct (installEntry_Headers _ _ _ _ He) as [Hh _].
    destruct entry; simpl in *. by subst.
  - intros Hd.
    apply AddMCPServer_cases in Ha as [[-> _] | (-> & _)]; [done|].
    by destruct Hd.
Qed.

Lemma runInstall_spec_witness :
  let f := {| command.installHTTP := false; command.installURL := "";
              command.installUVX := false; command.installCommand := "";
              command.installArgs := [] |} in
  let σ := home (holding (servers ∅)) absent in
  (∃ σ' m, command.runInstall f "context7" (Some "@upstash/context7-mcp") σ
           = (σ', command.Done)
     ∧ config.ListMCPServersGlobal σ = Ok m
     ∧ config.ListMCPServersGlobal σ'
       = Ok (<["context7" :=
               {| config.entry_Type := "stdio"; config.entry_Command := "npx";
                  config.entry_Args := ["-y"; "@upstash/context7-mcp"];
                  config.entry_URL := ""; config.entry_Headers := ∅;
                  config.entry_Enabled := false |}]> m))
  ∧ (command.runInstall f "context7" None σ).1 = σ.
Proof.
  intros f σ. split.
  - destruct (command.runInstall f "context7" (Some "@upstash/context7-mcp") σ)
      as [σ' out] eqn:Hr.
    assert (out = command.Done) as -> by (by vm_compute in Hr; simplify_eq).
    destruct (proj1 (runInstall_spec f "context7" _ σ σ' _ Hr) eq_refl)
      as (entry & m & He & Hm & _ & Hm').
    exists σ', m. split; [done|]. split; [done|].
    rewrite Hm'. cbv in He. by simplify_eq.
  - destruct (command.runInstall f "context7" None σ) as [σ' out] eqn:Hr.
    simpl. apply (runInstall_spec f "context7" None σ σ' out Hr).
    intros ->. by vm_compute in Hr.
Defined.


(** ** More on the aggregator *)

Section aggregator_more.
Context `{MapRange} (r : config.Reader).

(** X21: a server returned by [ListMCPServers] is enabled exactly when
    [settings.json] maps its name to true; in particular every server is
    disabled when the settings cannot be read. *)
Theorem ListMCPServers_Enabled (σ : fs) (s : config.MCPServer) :
  s ∈ (config.ListMCPServers r σ).1 →
  config.Enabled s = default false (config.enabledFlags r σ !! config.Name s)
  ∧ ((∀ m, config.readSettings r σ ≠ Ok m) → config.Enabled s = false).
Proof.
  unfold config.ListMCPServers. simpl.
  intros (s0 & -> & Hs0)%list_elem_of_fmap.
  assert (config.Enabled s0 = false) as Hs0'.
  { assert (∃ name cfg source, config.origin σ name cfg
                               ∧ s0 = config.newServer name cfg source)
      as (name & cfg & source & _ & ->); [|done].
    destruct (config.readClaudeJSON r σ) as [cs| |] eqn:Hcs;
      destruct (config.readPluginConfigs r σ) as [ps| |] eqn:Hps;
      simpl in Hs0;
      repeat match goal with
        | H : _ ∈ _ ++ _ |- _ => apply elem_of_app in H as [?|?]
        | H : _ ∈ [] |- _ => by apply elem_of_nil in H
        end;
      eauto using readClaudeJSON_origin, readPluginConfigs_origin. }
  assert (config.Enabled
            (config.applyEnabled (config.enabledFlags r σ) s0)
          = default false (config.enabledFlags r σ !! config.Name s0)) as He.
  { unfold config.applyEnabled.
    by destruct (config.enabledFlags r σ !! config.Name s0). }
  rewrite applyEnabled_Name. split; [done|].
  intros Hr. rewrite He. unfold config.enabledFlags.
  destruct (config.readSettings r σ) as [m| |]; [by destruct (Hr m)|done..].
Qed.





End aggregator_more.

Lemma ListMCPServers_Enabled_witness :
  let σ := {| claude_json := holding zeta_store;
              settings_json := holding (flags {["zeta" := true]});
              plugins_cache := inr alpha_cache |} in
  (config.ListMCPServers (H := key_order) the_config_reader σ).1
  = [config.set_Enabled true zeta; alpha]
  ∧ config.Enabled (config.set_Enabled true zeta)
    = default false
        (config.enabledFlags the_config_reader σ !! "zeta")
  ∧ config.Enabled alpha = false.
Proof.
  intros σ.
  assert ((config.ListMCPServers (H := key_order) the_config_reader σ).1
          = [config.set_Enabled true zeta; alpha]) as Hl
    by (vm_compute; reflexivity).
  split; [done|]. split.
  - apply (@ListMCPServers_Enabled key_order the_config_reader σ).
    rewrite Hl. apply list_elem_of_here.
  - destruct (@ListMCPServers_Enabled key_order the_config_reader zeta_alpha alpha)
      as [_ Hoff].
    + rewrite ListMCPServers_zeta_alpha. apply list_elem_of_further.
      apply list_elem_of_here.
    + apply Hoff. intros m Hm. by vm_compute in Hm.
Defined.



(** ** The command [remove] *)

(** X23: when the [remove] command succeeds, the name was listed by
    [ListMCPServersGlobal] and is no longer, the other entries being as
    before; when it does not succeed, the store is as it was. *)
Theorem runRemove_spec (name : string) (σ σ' : fs) (out : command.outcome) :
  command.runRemove name σ = (σ', out) →
  (out = command.Done →
   ∃ m, config.ListMCPServersGlobal σ = Ok m ∧ is_Some (m !! name)
     ∧ config.ListMCPServersGlobal σ' = Ok (delete name m))
  ∧ (out ≠ command.Done → σ' = σ).
Proof.
  unfold command.runRemove.
  destruct (config.MCPServerExists name σ) as [[|]| |] eqn:He;
    [|by intros [= <- <-]..].
  destruct (config.RemoveMCPServer name σ) as [σ1 r] eqn:Hr.
  intros [= <- <-].
  apply RemoveMCPServer_cases in Hr
    as [[-> Hr] | (-> & o & ms & Hn & _ & Hms & Hname & ->)].
  - split; [|done]. by destruct r as [[]| |].
  - split; [|by intros []]. intros _.
    assert (config.ListMCPServersGlobal σ
            = Ok (omap (λ v, config.entryOf <$> config.as_object v) ms)) as Hl.
    { rewrite (ListMCPServersGlobal_Doc σ o Hn). by rewrite Hms. }
    eexists. split; [done|]. split.
    + unfold config.MCPServerExists in He. rewrite Hl in He. simpl in He.
      injection He as He. by apply bool_decide_eq_true in He.
    + erewrite ListMCPServersGlobal_Doc by reflexivity.
      rewrite sub_map_insert. simpl. by rewrite omap_delete.
Qed.

Lemma runRemove_spec_witness :
  let σ := home (holding (servers {["x" := JObj (config.serverConfig npx_entry);
                                    "y" := JObj ∅]})) absent in
  (∃ σ' m, command.runRemove "x" σ = (σ', command.Done)
     ∧ config.ListMCPServersGlobal σ = Ok m
     ∧ config.ListMCPServersGlobal σ' = Ok (delete "x" m))
  ∧ (command.runRemove "z" σ).1 = σ.
Proof.
  intros σ. split.
  - destruct (command.runRemove "x" σ) as [σ' out] eqn:Hr.
    assert (out = command.Done) as -> by (by vm_compute in Hr; simplify_eq).
    destruct (proj1 (runRemove_spec "x" σ σ' _ Hr) eq_refl) as (m & Hm & _ & Hm').
    by exists σ', m.
  - destruct (command.runRemove "z" σ) as [σ' out] eqn:Hr. simpl.
    apply (runRemove_spec "z" σ σ' out Hr). intros ->. by vm_compute in Hr.
Defined.

(** ** The two ways to set a flag *)




(** ** Documents that are [null] *)

(** X25: when a store file holds the JSON document [null], the reads treat
    it as empty, but the mutations that assign into the decoded (nil) map —
    [SetPluginEnabled], [EnablePlugin]/[DisablePlugin] and [AddMCPServer] —
    panic and leave the file as it is; [RemoveMCPServer] reports "not
    found". *)
Theorem null_document (r : claudeconfig.Reader) (id name : string) (b : bool)
    (entry : config.MCPServerEntry) (σ : fs) :
  (node_of (settings_json σ) = Data (Doc JNull) →
   config.ListPlugins σ = Ok ∅
   ∧ claudeconfig.ListAllPlugins r σ = Ok ∅
   ∧ config.SetPluginEnabled id b σ = (σ, Panic)
   ∧ claudeconfig.toggled r b id σ = (σ, Panic))
  ∧ (node_of (claude_json σ) = Data (Doc JNull) →
     config.ListMCPServersGlobal σ = Ok ∅
     ∧ config.AddMCPServer name entry σ = (σ, Panic)
     ∧ config.RemoveMCPServer name σ = (σ, Err (ENotFound name))).
Proof.
  split; intros Hn.
  - split; [|split; [|split]].
    + unfold config.ListPlugins, ReadFile. by rewrite Hn.
    + unfold claudeconfig.ListAllPlugins.
      by rewrite (ReadSettings_Doc r σ JNull _ Hn eq_refl).
    + unfold config.SetPluginEnabled, ReadFile. by rewrite Hn.
    + by apply toggled_Null.
  - split; [|split].
    + unfold config.ListMCPServersGlobal, ReadFile. by rewrite Hn.
    + unfold config.AddMCPServer, ReadFile. rewrite Hn. simpl.
      by rewrite lookup_empty, decide_False by (by intros [? ?]).
    + unfold config.RemoveMCPServer, ReadFile. by rewrite Hn.
Qed.

Lemma null_document_witness :
  let σ := home (File (Data (Doc JNull)) true) (File (Data (Doc JNull)) true) in
  (config.ListPlugins σ = Ok ∅
   ∧ claudeconfig.ListAllPlugins the_reader σ = Ok ∅
   ∧ config.SetPluginEnabled "a@pub" true σ = (σ, Panic)
   ∧ claudeconfig.toggled the_reader true "a@pub" σ = (σ, Panic))
  ∧ (config.ListMCPServersGlobal σ = Ok ∅
     ∧ config.AddMCPServer "x" npx_entry σ = (σ, Panic)
     ∧ config.RemoveMCPServer "x" σ = (σ, Err (ENotFound "x"))).
Proof.
  intros σ.
  destruct (null_document the_reader "a@pub" "x" true npx_entry σ) as [Hs Hc].
  split; [by apply Hs | by apply Hc].
Defined.
